(** * The kernel_config analysis plugin of FACT_core

    A shallow embedding of
    [src/plugins/analysis/kernel_config/code/kernel_config.py]:
    the signature scanner and the decompression cascade
    ([try_object_extract_ikconfig]), the configuration classifier
    ([probably_kernel_config], with the two compiled patterns), the
    orchestrator ([process_object]) and the hardening result filter
    ([whitelist_configs], [check_kernel_config]).

    Python values are modelled as they are at run time: [bytes] is a list
    of bytes, [str] a list of Unicode code points, a [dict] with string
    keys a finite map.  Exceptions are explicit results, and the in-place
    mutation of the file object and of the auditor's report is explicit
    state passing. *)

From Stdlib Require Import ZArith Lia.
From Stdlib.Strings Require Import Byte.
From stdpp Require Import gmap strings list fin_maps.

Set Warnings "-register-all".
Open Scope Z_scope.

(** ** Python data *)

(** [bytes]: an immutable sequence of bytes. *)
Abbreviation bytes := (list byte).

(** [str]: a sequence of Unicode code points. *)
Abbreviation str := (list Z).

(** An ASCII literal as a [str]. *)
Definition u (x : string) : str :=
  (λ a, Z.of_N (Ascii.N_of_ascii a)) <$> String.list_ascii_of_string x.

(** An ASCII literal as [bytes]. *)
Definition b (x : string) : bytes := String.list_byte_of_string x.

Definition byte_val (x : byte) : Z := Z.of_N (Byte.to_N x).

Definition byte_of_Z (z : Z) : byte :=
  match Byte.of_N (Z.to_N z) with Some x => x | None => x00 end.

(** The exceptions that the modelled code can meet. *)
Inductive exn :=
| KeyError | TypeError | AttributeError | IndexError
| UnicodeDecodeError | UnicodeEncodeError.

(** The values [json.loads] produces, which are also the values stored in
    an analysis record: [None], [bool], [int], [float] (kept by its
    binary64 bit pattern, never inspected), [str], [list] and [dict] with
    string keys. *)
Inductive pyval :=
| PNone
| PBool (v : bool)
| PInt (z : Z)
| PFloat (bits : Z)
| PStr (s : str)
| PList (l : list pyval)
| PDict (d : gmap str pyval).

(** ** UTF-8: [bytes.decode()] and [str.encode()]

    Both use the strict error handler: a malformed sequence, an overlong
    form, a surrogate or a value above U+10FFFF raises. [None] stands for
    the raised [UnicodeDecodeError] / [UnicodeEncodeError]. *)
Module Utf8.

Definition is_cont (x : Z) : bool := (128 <=? x) && (x <=? 191).

Definition is_surrogate (c : Z) : bool := (55296 <=? c) && (c <=? 57343).

Definition push (c : Z) (o : option str) : option str :=
  match o with Some s => Some (c :: s) | None => None end.

Fixpoint decode (raw : bytes) : option str :=
  match raw with
  | [] => Some []
  | b0 :: t0 =>
    let x0 := byte_val b0 in
    if x0 <? 128 then push x0 (decode t0)
    else if (194 <=? x0) && (x0 <=? 223) then
      match t0 with
      | b1 :: t1 =>
        let x1 := byte_val b1 in
        if is_cont x1
        then push ((x0 - 192) * 64 + (x1 - 128)) (decode t1)
        else None
      | _ => None
      end
    else if (224 <=? x0) && (x0 <=? 239) then
      match t0 with
      | b1 :: b2 :: t2 =>
        let x1 := byte_val b1 in
        let x2 := byte_val b2 in
        let c := (x0 - 224) * 4096 + (x1 - 128) * 64 + (x2 - 128) in
        if is_cont x1 && is_cont x2 && (2048 <=? c) && negb (is_surrogate c)
        then push c (decode t2)
        else None
      | _ => None
      end
    else if (240 <=? x0) && (x0 <=? 244) then
      match t0 with
      | b1 :: b2 :: b3 :: t3 =>
        let x1 := byte_val b1 in
        let x2 := byte_val b2 in
        let x3 := byte_val b3 in
        let c := (x0 - 240) * 262144 + (x1 - 128) * 4096
                 + (x2 - 128) * 64 + (x3 - 128) in
        if is_cont x1 && is_cont x2 && is_cont x3
           && (65536 <=? c) && (c <=? 1114111)
        then push c (decode t3)
        else None
      | _ => None
      end
    else None
  end.

(** A code point that [encode] accepts: a Unicode scalar value. *)
Definition scalar (c : Z) : bool :=
  (0 <=? c) && (c <=? 1114111) && negb (is_surrogate c).

Definition encode_cp (c : Z) : bytes :=
  if c <? 128 then [byte_of_Z c]
  else if c <? 2048 then
    [byte_of_Z (192 + c / 64); byte_of_Z (128 + c mod 64)]
  else if c <? 65536 then
    [byte_of_Z (224 + c / 4096); byte_of_Z (128 + (c / 64) mod 64);
     byte_of_Z (128 + c mod 64)]
  else
    [byte_of_Z (240 + c / 262144); byte_of_Z (128 + (c / 4096) mod 64);
     byte_of_Z (128 + (c / 64) mod 64); byte_of_Z (128 + c mod 64)].

Fixpoint encode (s : str) : option bytes :=
  match s with
  | [] => Some []
  | c :: s' =>
    if scalar c
    then match encode s' with
         | Some r => Some (encode_cp c ++ r)
         | None => None
         end
    else None
  end.

End Utf8.

(** ** Signature scanner: [find], [in] and slicing on sequences *)

#[global] Instance byte_eq_dec : EqDecision byte := Byte.byte_eq_dec.

Section Sequences.
Context {A : Type} `{EqDecision A}.

(** [s.startswith(sub)] *)
Fixpoint startswith (sub s : list A) : bool :=
  match sub, s with
  | [], _ => true
  | x :: sub', y :: s' => bool_decide (x = y) && startswith sub' s'
  | _ :: _, [] => false
  end.

Fixpoint find_from (sub s : list A) (i : Z) : Z :=
  if startswith sub s then i
  else match s with
       | [] => -1
       | _ :: s' => find_from sub s' (i + 1)
       end.

(** [s.find(sub)]: the lowest offset at which [sub] occurs in [s], [-1]
    when it does not occur. *)
Definition find (s sub : list A) : Z := find_from sub s 0.

(** [sub in s] *)
Definition contains (sub s : list A) : bool := 0 <=? find s sub.

(** [s[start:]] for a non-negative [start]. *)
Definition slice_from (s : list A) (start : Z) : list A :=
  drop (Z.to_nat start) s.
End Sequences.

(** [MAGIC_WORD = b'IKCFG_ST\037\213'] *)
Definition MAGIC_WORD : bytes := b "IKCFG_ST" ++ [x1f; x8b].

(** ** The [re] engine, for the constructs the two patterns use

    A backtracking matcher: alternatives are tried left to right, a
    repetition is greedy and gives characters back one at a time. The
    matcher carries the character before the current position ([prev],
    [None] at the start of the text), which the anchor [^] inspects; [$]
    inspects the text that is left. Both anchors are the [re.MULTILINE]
    ones. *)
Module Re.

Inductive regex :=
| Eps                         (* the empty pattern *)
| Chr (c : Z)                 (* a literal character *)
| Class (p : Z → bool)        (* \w, \d, [ymn] *)
| Bol                         (* ^ *)
| Eol                         (* $ *)
| Cat (r1 r2 : regex)
| Alt (r1 r2 : regex)         (* r1|r2 *)
| Star (p : Z → bool).        (* p* for a one-character pattern p *)

(** [p+] *)
Definition Plus (p : Z → bool) : regex := Cat (Class p) (Star p).

(** A literal text. *)
Fixpoint Lit (s : str) : regex :=
  match s with
  | [] => Eps
  | c :: s' => Cat (Chr c) (Lit s')
  end.

Definition newline : Z := 10.

(** [.] without [re.DOTALL] *)
Definition dot (c : Z) : bool := negb (c =? newline).

(** [^] matches at the start of the text and just after each newline. *)
Definition at_bol (prev : option Z) : bool :=
  match prev with
  | None => true
  | Some c => c =? newline
  end.

(** [$] matches at the end of the text and just before each newline. *)
Definition at_eol (rest : str) : bool :=
  match rest with
  | [] => true
  | c :: _ => c =? newline
  end.

Definition cont := option Z → str → option str.

Fixpoint star_match (p : Z → bool) (prev : option Z) (s : str) (k : cont)
  : option str :=
  match s with
  | c :: s' =>
    if p c
    then match star_match p (Some c) s' k with
         | Some r => Some r
         | None => k prev s
         end
    else k prev s
  | [] => k prev s
  end.

(** [rmatch r prev s k]: match [r] at the head of [s], then continue with
    [k] on what is left; the result is the text left after the whole
    match. *)
Fixpoint rmatch (r : regex) (prev : option Z) (s : str) (k : cont)
  : option str :=
  match r with
  | Eps => k prev s
  | Chr c =>
    match s with
    | x :: s' => if x =? c then k (Some x) s' else None
    | [] => None
    end
  | Class p =>
    match s with
    | x :: s' => if p x then k (Some x) s' else None
    | [] => None
    end
  | Bol => if at_bol prev then k prev s else None
  | Eol => if at_eol s then k prev s else None
  | Cat r1 r2 => rmatch r1 prev s (λ prev' s', rmatch r2 prev' s' k)
  | Alt r1 r2 =>
    match rmatch r1 prev s k with
    | Some rest => Some rest
    | None => rmatch r2 prev s k
    end
  | Star p => star_match p prev s k
  end.

(** The character before the position reached after reading [w]. *)
Definition last_or (prev : option Z) (w : str) : option Z :=
  match last w with
  | Some c => Some c
  | None => prev
  end.

(** The continuation of a top-level match. After an empty match the next
    one at the same position must be non-empty ([must_advance]). *)
Definition accept (must_advance : bool) (s : str) : cont :=
  λ _ rest,
    if must_advance && (length rest =? length s)%nat then None
    else Some rest.

(** [pattern.findall(text)]: the successive non-overlapping matches, left
    to right. The list holds the matched texts (for a pattern with groups
    Python lists the groups of each match instead; the callers only take
    the length). *)
Fixpoint findall_aux (fuel : nat) (r : regex) (prev : option Z) (s : str)
    (must_advance : bool) : list str :=
  match fuel with
  | O => []
  | S fuel' =>
    match rmatch r prev s (accept must_advance s) with
    | Some rest =>
      let w := take (length s - length rest)%nat s in
      w :: findall_aux fuel' r (last_or prev w) rest
             (length rest =? length s)%nat
    | None =>
      match s with
      | [] => []
      | c :: s' => findall_aux fuel' r (Some c) s' false
      end
    end
  end.

Definition findall (r : regex) (s : str) : list str :=
  findall_aux (2 * length s + 2) r None s false.

(** What a pattern matches: [matches r prev w rest] says that [r] matches
    the text [w] when [prev] is the character before it and [rest] the
    text after it. *)
Fixpoint matches (r : regex) (prev : option Z) (w rest : str) : Prop :=
  match r with
  | Eps => w = []
  | Chr c => w = [c]
  | Class p => ∃ c, w = [c] ∧ p c = true
  | Bol => w = [] ∧ at_bol prev = true
  | Eol => w = [] ∧ at_eol rest = true
  | Cat r1 r2 =>
    ∃ w1 w2, w = w1 ++ w2 ∧ matches r1 prev w1 (w2 ++ rest)
             ∧ matches r2 (last_or prev w1) w2 rest
  | Alt r1 r2 => matches r1 prev w rest ∨ matches r2 prev w rest
  | Star p => Forall (λ c, p c = true) w
  end.

(** The texts of a pattern without anchors. *)
Fixpoint lang (r : regex) (w : str) : Prop :=
  match r with
  | Eps => w = []
  | Chr c => w = [c]
  | Class p => ∃ c, w = [c] ∧ p c = true
  | Bol | Eol => False
  | Cat r1 r2 => ∃ w1 w2, w = w1 ++ w2 ∧ lang r1 w1 ∧ lang r2 w2
  | Alt r1 r2 => lang r1 w ∨ lang r2 w
  | Star p => Forall (λ c, p c = true) w
  end.

Fixpoint anchor_free (r : regex) : bool :=
  match r with
  | Bol | Eol => false
  | Cat r1 r2 | Alt r1 r2 => anchor_free r1 && anchor_free r2
  | _ => true
  end.

End Re.

(** ** Results, and the state of a call

    A Python expression either yields a value or raises. *)
Inductive result (A : Type) :=
| Ok (a : A)
| Raise (e : exn).
Arguments Ok {A} a.
Arguments Raise {A} e.

(** The part of the framework's [FileObject] that the plugin touches:
    [processed_analysis] maps a plugin name to that plugin's result
    record. *)
Record FileObject := mkFileObject {
  binary : bytes;
  file_name : str;
  processed_analysis : gmap str (gmap str pyval)
}.

(** [NAME = 'kernel_config'] *)
Definition NAME : str := u "kernel_config".

(** A method that may mutate the file object and may raise: the object is
    threaded through, and it keeps the mutations made before a raise. *)
Definition M (A : Type) : Type := FileObject → FileObject * result A.

Definition ret {A} (a : A) : M A := λ fo, (fo, Ok a).

Definition bind {A B} (m : M A) (f : A → M B) : M B :=
  λ fo, match m fo with
        | (fo', Ok a) => f a fo'
        | (fo', Raise e) => (fo', Raise e)
        end.

Definition get : M FileObject := λ fo, (fo, Ok fo).

Definition lift {A} (r : result A) : M A := λ fo, (fo, r).

Notation "x ←: m ; k" := (bind m (λ x, k))
  (at level 100, m at next level, right associativity,
   format "x  ←:  m ;  '/' k").
Notation "m ;: k" := (bind m (λ _, k))
  (at level 100, right associativity, format "m ;:  '/' k").

(** [file_object.processed_analysis[name] = record] *)
Definition set_analysis (name : str) (record : gmap str pyval) : M unit :=
  λ fo, (mkFileObject (binary fo) (file_name fo)
           (<[name := record]> (processed_analysis fo)), Ok tt).

(** [file_object.processed_analysis[name]] *)
Definition get_analysis (name : str) : M (gmap str pyval) :=
  λ fo, match processed_analysis fo !! name with
        | Some record => (fo, Ok record)
        | None => (fo, Raise KeyError)
        end.

(** [file_object.processed_analysis[name][key] = v] *)
Definition set_item (name key : str) (v : pyval) : M unit :=
  record ←: get_analysis name;
  set_analysis name (<[key := v]> record).

(** The file object with [record] as the plugin's result record. *)
Definition with_record (fo : FileObject) (record : gmap str pyval)
  : FileObject :=
  mkFileObject (binary fo) (file_name fo)
    (<[NAME := record]> (processed_analysis fo)).

(** The record of a positive verdict, as [add_kernel_config_to_analysis]
    leaves it. *)
Definition found_record (text : str) : gmap str pyval :=
  <[u "tags" := PDict {[u "IKCONFIG" := PStr (u "Kernel Configuration")]}]>
    (<[u "kernel_config" := PStr text]>
       (<[u "is_kernel_config" := PBool true]> ∅)).

(** ** The allow-lists *)

Definition KERNEL_WHITELIST : list str := u <$> [
  "kernel_heap_randomization"; "gcc_stack_protector";
  "gcc_stack_protector_strong"; "gcc_structleak"; "gcc_structleak_byref";
  "slab_freelist_randomization"; "cpu_sw_domain"; "virtually_mapped_stack";
  "restrict_dev_mem_access"; "restrict_io_dev_mem_access"; "ro_kernel_data";
  "ro_module_data"; "full_refcount_validation"; "hardened_usercopy";
  "fortify_source"; "restrict_dev_kmem_access"; "strict_user_copy_check";
  "random_address_space_layout"; "arm_kernmem_perms"; "arm_strict_rodata";
  "unmap_kernel_in_userspace"; "harden_branch_predictor";
  "harden_el2_vector_mapping"; "speculative_store_bypass_disable";
  "emulate_privileged_access_never"; "randomize_kernel_address";
  "randomize_module_region_full"
]%string.

Definition GRSECURITY_WHITELIST : list str := u <$> [
  "grsecurity_config"; "config_pax_kernexec"; "config_pax_noexec";
  "config_pax_pageexec"; "config_pax_mprotect"; "config_pax_aslr";
  "config_pax_randkstack"; "config_pax_randustack"; "config_pax_randmmap";
  "config_pax_memory_sanitize"; "config_pax_memory_stackleak";
  "config_pax_memory_uderef"; "config_pax_refcount"; "config_pax_usercopy";
  "config_grkernsec_jit_harden"; "config_bpf_jit";
  "config_grkernsec_rand_threadstack"; "config_grkernsec_kmem";
  "config_grkernsec_io"; "config_grkernsec_modharden"; "config_modules";
  "config_grkernsec_chroot"; "config_grkernsec_harden_ptrace";
  "config_grkernsec_randnet"; "config_grkernsec_blackhole";
  "config_grkernsec_brute"; "config_grkernsec_hidesym"
]%string.

(** ** The hardening result filter *)

(** [key in allow_list], for a key of any type: only a [str] equals a
    [str]. *)
Definition in_whitelist (key : pyval) (allow_list : list str) : bool :=
  match key with
  | PStr k => bool_decide (k ∈ allow_list)
  | _ => false
  end.

(** The loop [for key in section.copy(): if key not in allow_list: del
    section[key]] on a [dict]: the keys of the copy are visited in turn,
    the deletions are made in the section itself. *)
Definition filter_dict (allow_list : list str) (section : gmap str pyval)
  : gmap str pyval :=
  foldl (λ cur key, if bool_decide (key ∈ allow_list) then cur
                    else delete key cur)
        section (map_to_list section).*1.

(** [del l[key]] on a [list]: the subscript must be an [int] (a [bool] is
    one), a negative one counts from the end. *)
Definition list_delitem (l : list pyval) (key : pyval)
  : result (list pyval) :=
  let at_index (i : Z) :=
    let j := if i <? 0 then i + Z.of_nat (length l) else i in
    if (0 <=? j) && (j <? Z.of_nat (length l))
    then Ok (delete (Z.to_nat j) l)
    else Raise IndexError in
  match key with
  | PInt i => at_index i
  | PBool v => at_index (if v then 1 else 0)
  | _ => Raise TypeError
  end.

(** The same loop when the section is a [list]: the elements of the copy
    are the "keys". *)
Fixpoint filter_list (allow_list : list str) (keys cur : list pyval)
  : list pyval * option exn :=
  match keys with
  | [] => (cur, None)
  | key :: keys' =>
    if in_whitelist key allow_list then filter_list allow_list keys' cur
    else match list_delitem cur key with
         | Ok cur' => filter_list allow_list keys' cur'
         | Raise e => (cur, Some e)
         end
  end.

(** One of the two loops of [whitelist_configs], on whatever the section
    is: the section after the loop and the exception that ended it. Only
    [dict] and [list] have a [copy] method. *)
Definition filter_section (allow_list : list str) (section : pyval)
  : pyval * option exn :=
  match section with
  | PDict d => (PDict (filter_dict allow_list d), None)
  | PList l =>
    let '(l', e) := filter_list allow_list l l in (PList l', e)
  | _ => (section, Some AttributeError)
  end.

(** [whitelist_configs(config_results)]: the report is mutated in place;
    the result is the report after the call and the exception raised, if
    any. Subscripting with a string raises [KeyError] on a [dict] without
    the key and [TypeError] on anything that is not a [dict]. *)
Definition whitelist_configs (config_results : pyval) : pyval * option exn :=
  match config_results with
  | PDict d =>
    match d !! u "kernel" with
    | None => (config_results, Some KeyError)
    | Some kernel =>
      let '(kernel', e) := filter_section KERNEL_WHITELIST kernel in
      let d1 := <[u "kernel" := kernel']> d in
      match e with
      | Some _ => (PDict d1, e)
      | None =>
        match d1 !! u "grsecurity" with
        | None => (PDict d1, Some KeyError)
        | Some grsecurity =>
          let '(grsecurity', e') :=
            filter_section GRSECURITY_WHITELIST grsecurity in
          (PDict (<[u "grsecurity" := grsecurity']> d1), e')
        end
      end
    end
  | _ => (config_results, Some TypeError)
  end.

(** ** The plugin *)

Import Re.

Section Plugin.

(** What the plugin takes from outside this file.

    The Unicode tables behind [\w], [\d] and [str.lower] for the code
    points above U+007F (the ASCII range is written out below). *)
Variable unicode_isalnum : Z → bool.
Variable unicode_isdecimal : Z → bool.
Variable str_lower : str → str.

(** [decompress] of [internal/decomp.py], which is not part of the
    sources: every supported codec is tried on the buffer, the
    successful results are returned in order, and malformed input gives
    no candidates rather than an error. *)
Variable decompress : bytes → list bytes.

(** The auditor: [json.loads(execute_shell_command(command))] for a
    temporary file holding the given bytes. [None] stands for output
    that is not JSON ([JSONDecodeError]). *)
Variable checksec : bytes → option pyval.

(** *** The compiled patterns *)

Definition ascii_alnum (c : Z) : bool :=
  ((48 <=? c) && (c <=? 57)) || ((65 <=? c) && (c <=? 90))
  || ((97 <=? c) && (c <=? 122)).

(** [\w] in a [str] pattern *)
Definition is_word (c : Z) : bool :=
  if c <? 128 then ascii_alnum c || (c =? 95) else unicode_isalnum c.

(** [\d] in a [str] pattern *)
Definition is_digit (c : Z) : bool :=
  if c <? 128 then (48 <=? c) && (c <=? 57) else unicode_isdecimal c.

(** [[ymn]] *)
Definition is_ymn (c : Z) : bool := (c =? 121) || (c =? 109) || (c =? 110).

Definition seq (rs : list regex) : regex := foldr Cat Eps rs.

(** [^body$] *)
Definition anchored (body : regex) : regex := Cat Bol (Cat body Eol).

Definition config_body : regex :=
  seq [Alt (Lit (u "CONFIG")) (Lit (u "# CONFIG")); Chr 95; Plus is_word;
       Chr 61; Alt (Plus is_digit) (Class is_ymn)].

(** [re.compile(r'^(CONFIG|# CONFIG)_\w+=(\d+|[ymn])$', re.MULTILINE)] *)
Definition config_pattern : regex := anchored config_body.

Definition kernel_body : regex :=
  seq [Lit (u "# Linux"); Star dot; Lit (u " Kernel Configuration")].

(** [re.compile(r'^# Linux.* Kernel Configuration$', re.MULTILINE)] *)
Definition kernel_pattern : regex := anchored kernel_body.

(** *** Configuration classifier *)

Definition probably_kernel_config (raw_data : bytes) : bool :=
  match Utf8.decode raw_data with
  | None => false
  | Some content =>
    let config_directives := findall config_pattern content in
    let kernel_config_banner := findall kernel_pattern content in
    (0 <? length kernel_config_banner)%nat
    && (0 <? length config_directives)%nat
  end.

(** *** Decompression cascade *)

Definition try_object_extract_ikconfig (raw_data : bytes) : bytes :=
  let outer :=
    if find raw_data MAGIC_WORD <? 0 then
      match decompress raw_data with
      | [] => None
      | first :: _ => Some first
      end
    else Some raw_data in
  match outer with
  | None => []
  | Some container =>
    let start_offset := find container MAGIC_WORD in
    if start_offset <? 0 then []
    else
      match decompress (slice_from container start_offset) with
      | [] => []
      | first :: _ => first
      end
  end.

(** *** The hints of the other analyses *)

(** [v == s] for a string literal [s] *)
Definition eq_str (v : pyval) (s : str) : bool :=
  match v with
  | PStr x => bool_decide (x = s)
  | _ => false
  end.

Definition object_mime_is_plaintext (file_object : FileObject) : bool :=
  let analysis := processed_analysis file_object in
  match analysis !! u "file_type" with
  | None => false
  | Some file_type =>
    match file_type !! u "mime" with
    | None => false
    | Some mime => eq_str mime (u "text/plain")
    end
  end.

(** What a [for] over the value visits: the elements of a [list], the
    characters of a [str], the keys of a [dict]; the other values are
    not iterable. *)
Definition iterate (v : pyval) : result (list pyval) :=
  match v with
  | PList l => Ok l
  | PStr s => Ok ((λ c, PStr [c]) <$> s)
  | PDict d => Ok (PStr <$> (map_to_list d).*1)
  | _ => Raise TypeError
  end.

(** ['linux kernel' in component.lower()]: only a [str] has [lower]. *)
Definition is_linux_kernel (component : pyval) : result bool :=
  match component with
  | PStr s => Ok (contains (u "linux kernel") (str_lower s))
  | _ => Raise AttributeError
  end.

(** [any(is_linux_kernel(c) for c in components)], which stops at the
    first hit. *)
Fixpoint any_linux_kernel (components : list pyval) : result bool :=
  match components with
  | [] => Ok false
  | c :: rest =>
    match is_linux_kernel c with
    | Ok true => Ok true
    | Ok false => any_linux_kernel rest
    | Raise e => Raise e
    end
  end.

Definition object_is_kernel_image (file_object : FileObject)
  : result bool :=
  match processed_analysis file_object !! u "software_components" with
  | None => Ok false
  | Some software_components =>
    match software_components !! u "summary" with
    | None => Ok false
    | Some summary =>
      match iterate summary with
      | Ok components => any_linux_kernel components
      | Raise e => Raise e
      end
    end
  end.

(** *** The audit step *)

(** The empty report [{}] *)
Definition empty_report : pyval := PDict ∅.

(** [JSONDecodeError] ([checksec] gives [None]) and [KeyError] are
    caught; anything else leaves the function. *)
Definition check_kernel_config (kernel_config : str) : result pyval :=
  match Utf8.encode kernel_config with
  | None => Raise UnicodeEncodeError
  | Some data =>
    match checksec data with
    | None => Ok empty_report
    | Some parsed =>
      match whitelist_configs parsed with
      | (filtered, None) => Ok filtered
      | (_, Some KeyError) => Ok empty_report
      | (_, Some e) => Raise e
      end
    end
  end.

(** *** The orchestrator *)

(** Modelled from the spec: [add_analysis_tag] belongs to the plugin base
    class of the host framework, which is not part of the sources.
    Section 6 of the spec: "A single descriptive tag/annotation emitted
    when a configuration is found, for downstream indexing", attached to
    the caller's result record. The annotation is kept under the key
    ['tags'] of the record. *)
Definition add_analysis_tag (tag_name value : str) : M unit :=
  set_item NAME (u "tags") (PDict {[tag_name := PStr value]}).

Definition add_kernel_config_to_analysis (config_bytes : bytes) : M unit :=
  set_item NAME (u "is_kernel_config") (PBool true);:
  text ←: lift (match Utf8.decode config_bytes with
                | Some text => Ok text
                | None => Raise UnicodeDecodeError
                end);
  set_item NAME (u "kernel_config") (PStr text);:
  add_analysis_tag (u "IKCONFIG") (u "Kernel Configuration").

Definition _get_summary (results : gmap str pyval) : list str :=
  match results !! u "is_kernel_config" with
  | Some (PBool true) => [u "Kernel Config"]
  | _ => []
  end.

(** The [if]/[elif] of [process_object]. *)
Definition detect : M unit :=
  file_object ←: get;
  if object_mime_is_plaintext file_object
     && probably_kernel_config (binary file_object)
  then add_kernel_config_to_analysis (binary file_object)
  else
    candidate ←: (if bool_decide (file_name file_object = u "configs.ko")
                  then ret true
                  else lift (object_is_kernel_image file_object));
    if candidate : bool then
      let maybe_config :=
        try_object_extract_ikconfig (binary file_object) in
      if probably_kernel_config maybe_config
      then add_kernel_config_to_analysis maybe_config
      else ret tt
    else ret tt.

(** [process_object(file_object)]: the object after the call, and the
    exception that left the call, if any. *)
Definition process_object : M unit :=
  set_analysis NAME ∅;:
  detect;:
  record ←: get_analysis NAME;
  set_item NAME (u "summary") (PList (PStr <$> _get_summary record));:
  record ←: get_analysis NAME;
  match record !! u "kernel_config" with
  | None => ret tt
  | Some kernel_config =>
    report ←: lift (match kernel_config with
                    | PStr text => check_kernel_config text
                    | _ => Raise AttributeError
                    end);
    set_item NAME (u "checksec") report
  end.

(** *** Proof-side view of the branch taken

    The bytes that the [if]/[elif] of [process_object] hands to
    [add_kernel_config_to_analysis], if any, or the exception raised
    while looking at the hints. *)
Definition detection (fo : FileObject) : result (option bytes) :=
  if object_mime_is_plaintext fo && probably_kernel_config (binary fo)
  then Ok (Some (binary fo))
  else
    match (if bool_decide (file_name fo = u "configs.ko") then Ok true
           else object_is_kernel_image fo) with
    | Raise e => Raise e
    | Ok false => Ok None
    | Ok true =>
      let maybe_config := try_object_extract_ikconfig (binary fo) in
      if probably_kernel_config maybe_config then Ok (Some maybe_config)
      else Ok None
    end.

End Plugin.

(** The record of a positive verdict once the summary is set. *)
Definition summary_of (text : str) : gmap str pyval :=
  <[u "summary" := PList [PStr (u "Kernel Config")]]> (found_record text).

(** ** The orchestrator's contract, in the words of the specification *)

Inductive ExtractionVerdict :=
| NotAConfig
| Found (configText : str).

(** A raw object: its bytes and the hints supplied with it. *)
Record RawObject := mkRawObject {
  raw_bytes : bytes;
  declaredMime : option str;
  componentHints : list str;
  fileName : str
}.

(** The bytes read as text (the classifier only accepts bytes that
    decode). *)
Definition as_text (raw : bytes) : str := default [] (Utf8.decode raw).

Section Policy.
Variable classifier : bytes → bool.
Variable cascade : bytes → bytes.
Variable lower : str → str.

(** The hint's lowercased text contains the substring [linux kernel]. *)
Definition names_linux_kernel (hint : str) : bool :=
  contains (u "linux kernel") (lower hint).

(** The decision policy; the first matching branch wins. *)
Definition decision_policy (object : RawObject) : ExtractionVerdict :=
  if bool_decide (declaredMime object = Some (u "text/plain"))
     && classifier (raw_bytes object)
  then Found (as_text (raw_bytes object))
  else if bool_decide (fileName object = u "configs.ko")
          || existsb names_linux_kernel (componentHints object)
  then
    let result := cascade (raw_bytes object) in
    if classifier result then Found (as_text result) else NotAConfig
  else NotAConfig.
End Policy.

(** The raw object that a file object stands for: the MIME type is the
    string under [file_type]/[mime], the hints are the list under
    [software_components]/[summary]. *)
Definition text_of (v : pyval) : option str :=
  match v with
  | PStr s => Some s
  | _ => None
  end.

Definition mime_of (fo : FileObject) : option str :=
  file_type ← processed_analysis fo !! u "file_type";
  mime ← file_type !! u "mime";
  text_of mime.

Definition hints_of (fo : FileObject) : list str :=
  match processed_analysis fo !! u "software_components" with
  | None => []
  | Some software_components =>
    match software_components !! u "summary" with
    | Some (PList l) => omap text_of l
    | _ => []
    end
  end.

Definition raw_object (fo : FileObject) : RawObject :=
  mkRawObject (binary fo) (mime_of fo) (hints_of fo) (file_name fo).

(** The hints are what the component analysis writes: when there is a
    summary, it is a list of strings. *)
Definition hints_well_typed (fo : FileObject) : bool :=
  match processed_analysis fo !! u "software_components" with
  | None => true
  | Some software_components =>
    match software_components !! u "summary" with
    | None => true
    | Some (PList l) => forallb (λ v, bool_decide (is_Some (text_of v))) l
    | Some _ => false
    end
  end.

(** The verdict recorded on a file object: [Found] when [is_kernel_config]
    is set, with the text under [kernel_config]. *)
Definition verdict (fo : FileObject) : ExtractionVerdict :=
  match processed_analysis fo !! NAME with
  | None => NotAConfig
  | Some record =>
    match record !! u "is_kernel_config", record !! u "kernel_config" with
    | Some (PBool true), Some (PStr text) => Found text
    | _, _ => NotAConfig
    end
  end.


(** A match of [r] somewhere in [s]. *)
Definition found_in (r : regex) (prev : option Z) (s : str) : Prop :=
  ∃ pre w rest,
    s = pre ++ w ++ rest ∧ matches r (last_or prev pre) w rest.

(** ** The classifier's contract, in the words of the specification *)

(** The lines of a text: the pieces between newlines. *)
Fixpoint lines (s : str) : list str :=
  match s with
  | [] => [[]]
  | c :: s' =>
    if c =? newline then [] :: lines s'
    else match lines s' with
         | l :: ls => (c :: l) :: ls
         | [] => [[c]]
         end
  end.

(** A line [# Linux<anything> Kernel Configuration]. *)
Definition banner_line (l : str) : Prop :=
  ∃ anything, l = u "# Linux" ++ anything ++ u " Kernel Configuration".

Section Directive.
Variable unicode_isalnum unicode_isdecimal : Z → bool.

(** A line [(CONFIG|# CONFIG)_<word characters>=<digits | y | m | n>]. *)
Definition directive_line (l : str) : Prop :=
  ∃ prefix name value,
    l = prefix ++ u "_" ++ name ++ u "=" ++ value
    ∧ (prefix = u "CONFIG" ∨ prefix = u "# CONFIG")
    ∧ name ≠ []
    ∧ Forall (λ c, is_word unicode_isalnum c = true) name
    ∧ (value ≠ [] ∧ Forall (λ c, is_digit unicode_isdecimal c = true) value
       ∨ value = u "y" ∨ value = u "m" ∨ value = u "n").
End Directive.

(** The ASCII lower-case form of a character, and texts that differ in
    the case of ASCII letters only. *)
Definition ascii_fold (c : Z) : Z :=
  if (65 <=? c) && (c <=? 90) then c + 32 else c.

Definition same_modulo_case (a b : str) : Prop :=
  ascii_fold <$> a = ascii_fold <$> b.

(** ** The decompression cascade, in the words of the specification *)

(** [sub] occurs in [s]. *)
Definition occurs {A} (sub s : list A) : Prop :=
  ∃ pre post, s = pre ++ sub ++ post.

(** The first occurrence of [sub] in [s] comes after [pre] and is
    followed by [post]. *)
Definition first_occurrence {A} (sub s pre post : list A) : Prop :=
  s = pre ++ sub ++ post
  ∧ ∀ pre' post', s = pre' ++ sub ++ post' → (length pre ≤ length pre')%nat.

Section CascadeSpec.
Variable decompress : bytes → list bytes.

(** Step 1: the buffer itself when it contains the signature, else the
    first candidate of decompressing the whole buffer. *)
Definition is_container (raw container : bytes) : Prop :=
  (occurs MAGIC_WORD raw ∧ container = raw)
  ∨ (¬ occurs MAGIC_WORD raw ∧ ∃ rest, decompress raw = container :: rest).

(** The four steps of the algorithm. *)
Inductive extract_embedded_config (raw : bytes) : bytes → Prop :=
| no_container :
    ¬ occurs MAGIC_WORD raw → decompress raw = [] →
    extract_embedded_config raw []
| signature_absent container :
    is_container raw container → ¬ occurs MAGIC_WORD container →
    extract_embedded_config raw []
| no_candidate container pre post :
    is_container raw container →
    first_occurrence MAGIC_WORD container pre post →
    decompress (MAGIC_WORD ++ post) = [] →
    extract_embedded_config raw []
| first_candidate container pre post first rest :
    is_container raw container →
    first_occurrence MAGIC_WORD container pre post →
    decompress (MAGIC_WORD ++ post) = first :: rest →
    extract_embedded_config raw first.
End CascadeSpec.

(** ** Sample inputs *)

(** A small report: one allow-listed and one other flag under [kernel],
    nothing under [grsecurity]. *)
Definition sample_report : gmap str pyval :=
  {[ u "kernel" := PDict {[ u "gcc_stack_protector" := PStr (u "yes");
                            u "unrelated_flag" := PStr (u "no") ]};
     u "grsecurity" := PDict ∅ ]}.

Definition sample_kernel : gmap str pyval :=
  {[ u "gcc_stack_protector" := PStr (u "yes");
     u "unrelated_flag" := PStr (u "no") ]}.

(** Collaborators for the samples: no character above U+007F is a word
    character or a digit, lowercasing is the ASCII one, no codec ever
    succeeds, and the auditor prints nothing that parses. *)
Definition ascii_only (c : Z) : bool := false.

Definition ascii_lower (s : str) : str := ascii_fold <$> s.

Definition no_codec (raw : bytes) : list bytes := [].

Definition silent_auditor (data : bytes) : option pyval := None.

(** An auditor that prints [[]]. *)
Definition list_auditor (data : bytes) : option pyval := Some (PList []).

(** An auditor that prints the sample report. *)
Definition sample_auditor (data : bytes) : option pyval :=
  Some (PDict sample_report).

Definition LF : string := String (Ascii.ascii_of_nat 10) EmptyString.

(** ["# Linux 5.4.0 Kernel Configuration\nCONFIG_FOO=y\n# CONFIG_BAR=n\n"] *)
Definition sample_config : bytes :=
  b "# Linux 5.4.0 Kernel Configuration" ++ b LF ++ b "CONFIG_FOO=y" ++ b LF
  ++ b "# CONFIG_BAR=n" ++ b LF.

(** A plain-text file holding the sample configuration. *)
Definition sample_text_file : FileObject :=
  mkFileObject sample_config (u "config.txt")
    {[ u "file_type" := {[ u "mime" := PStr (u "text/plain") ]} ]}.

(** The same bytes declared as something else, without any hint. *)
Definition sample_binary_file : FileObject :=
  mkFileObject sample_config (u "config.bin")
    {[ u "file_type" := {[ u "mime" := PStr (u "application/octet-stream") ]} ]}.

(** A codec that knows the payload behind the signature. *)
Definition sample_codec (raw : bytes) : list bytes :=
  if bool_decide (raw = MAGIC_WORD ++ b "payload") then [sample_config]
  else [].

Definition sample_image : bytes := b "vmlinux" ++ MAGIC_WORD ++ b "payload".

(** The sample configuration with its banner in lower case, and with its
    directives under a lower-case prefix. *)
Definition lowercase_banner_config : bytes :=
  b "# linux 5.4.0 kernel configuration" ++ b LF ++ b "CONFIG_FOO=y" ++ b LF
  ++ b "# CONFIG_BAR=n" ++ b LF.

Definition lowercase_prefix_config : bytes :=
  b "# Linux 5.4.0 Kernel Configuration" ++ b LF ++ b "config_FOO=y" ++ b LF
  ++ b "# config_BAR=n" ++ b LF.

(** Text with a banner only, and text with directives only. *)
Definition banner_only : bytes :=
  b "# Linux 5.4.0 Kernel Configuration" ++ b LF.

Definition directives_only : bytes :=
  b "CONFIG_FOO=y" ++ b LF ++ b "# CONFIG_BAR=n" ++ b LF.

(** Further samples: the sample configuration with its directives first,
    with CRLF line endings, a report whose sections are lists of flag
    names, and a kernel image whose hints have an entry that is not a
    string after the one that names the kernel. *)
Definition CR : string := String (Ascii.ascii_of_nat 13) EmptyString.

Definition reordered_config : bytes :=
  b "# CONFIG_BAR=n" ++ b LF ++ b "CONFIG_FOO=y" ++ b LF
  ++ b "# Linux 5.4.0 Kernel Configuration" ++ b LF.

Definition crlf_config : bytes :=
  b "# Linux 5.4.0 Kernel Configuration" ++ b CR ++ b LF
  ++ b "CONFIG_FOO=y" ++ b CR ++ b LF.

Definition flag_list_report : gmap str pyval :=
  {[ u "kernel" := PList [PStr (u "gcc_stack_protector")];
     u "grsecurity" := PList [] ]}.

Definition mixed_hints : gmap str pyval :=
  {[ u "summary" := PList [PStr (u "Linux Kernel 5.4.0"); PInt 3] ]}.

Definition mixed_hints_file : FileObject :=
  mkFileObject sample_image (u "vmlinuz")
    {[ u "software_components" := mixed_hints ]}.
(** * Properties *)

(** ** The hardening result filter *)

Lemma filter_loop_lookup (allow_list keys : list str) (cur : gmap str pyval)
    (k : str) :
  foldl (λ cur key, if bool_decide (key ∈ allow_list) then cur
                    else delete key cur) cur keys !! k
  = if bool_decide (k ∈ keys ∧ k ∉ allow_list) then None else cur !! k.
Proof.
  revert cur. induction keys as [|key keys IH]; intros cur; simpl.
  - done.
  - rewrite IH. clear IH.
    destruct (decide (k ∈ keys ∧ k ∉ allow_list)) as [Hin|Hout].
    + rewrite !bool_decide_eq_true_2; [done| |done].
      destruct Hin as [? ?]. split; [by right|done].
    + rewrite (bool_decide_eq_false_2 _ Hout).
      destruct (decide (key ∈ allow_list)) as [Hw|Hw].
      * rewrite (bool_decide_eq_true_2 _ Hw).
        case_bool_decide as Hk; [|done].
        destruct Hk as [Hk Hnw]. apply elem_of_cons in Hk as [->|Hk]; [done|].
        destruct Hout. by split.
      * rewrite (bool_decide_eq_false_2 _ Hw).
        destruct (decide (k = key)) as [->|Hne].
        -- rewrite lookup_delete_eq. rewrite bool_decide_eq_true_2; [done|].
           split; [by left|done].
        -- rewrite lookup_delete_ne by done.
           case_bool_decide as Hk; [|done].
           destruct Hk as [Hk Hnw]. apply elem_of_cons in Hk as [->|Hk]; [done|].
           destruct Hout. by split.
Qed.

(** The filtered section holds exactly the allow-listed entries of the
    section, with their values. *)
Lemma filter_dict_lookup (allow_list : list str) (section : gmap str pyval)
    (k : str) :
  filter_dict allow_list section !! k
  = if bool_decide (k ∈ allow_list) then section !! k else None.
Proof.
  unfold filter_dict. rewrite filter_loop_lookup.
  destruct (decide (k ∈ allow_list)) as [Hw|Hw].
  - rewrite (bool_decide_eq_true_2 _ Hw).
    rewrite bool_decide_eq_false_2; [done|]. by intros [_ ?].
  - rewrite (bool_decide_eq_false_2 _ Hw).
    case_bool_decide as Hk; [done|].
    destruct (section !! k) as [v|] eqn:Hl; [|done].
    destruct Hk. split; [|done].
    apply list_elem_of_fmap. exists (k, v). split; [done|].
    by apply elem_of_map_to_list.
Qed.

Lemma filter_dict_idemp (allow_list : list str) (section : gmap str pyval) :
  filter_dict allow_list (filter_dict allow_list section)
  = filter_dict allow_list section.
Proof.
  apply map_eq. intros k. rewrite !filter_dict_lookup.
  by case_bool_decide.
Qed.

Lemma section_names_differ : u "kernel" ≠ u "grsecurity".
Proof. discriminate. Qed.

(** The filter on a report that has both sections, each a mapping. *)
Lemma whitelist_configs_sections (d kernel grsecurity : gmap str pyval) :
  d !! u "kernel" = Some (PDict kernel) →
  d !! u "grsecurity" = Some (PDict grsecurity) →
  whitelist_configs (PDict d)
  = (PDict (<[u "grsecurity" := PDict (filter_dict GRSECURITY_WHITELIST
                                         grsecurity)]>
            (<[u "kernel" := PDict (filter_dict KERNEL_WHITELIST kernel)]>
               d)), None).
Proof.
  intros Hk Hg. unfold whitelist_configs. rewrite Hk. simpl.
  rewrite lookup_insert_ne by apply section_names_differ.
  by rewrite Hg.
Qed.

(** ** Running the orchestrator *)

Ltac key_ne := let H := fresh in intros H; vm_compute in H; discriminate H.

Lemma set_item_with_record fo record key v :
  set_item NAME key v (with_record fo record)
  = (with_record fo (<[key := v]> record), Ok tt).
Proof.
  unfold set_item, bind, get_analysis, set_analysis, with_record. simpl.
  rewrite lookup_insert_eq. simpl. by rewrite insert_insert_eq.
Qed.

Lemma get_analysis_with_record fo record :
  get_analysis NAME (with_record fo record) = (with_record fo record, Ok record).
Proof.
  unfold get_analysis, with_record. simpl. by rewrite lookup_insert_eq.
Qed.

Lemma set_analysis_fresh fo :
  set_analysis NAME ∅ fo = (with_record fo ∅, Ok tt).
Proof. done. Qed.

Section Orchestrator.
Variable unicode_isalnum unicode_isdecimal : Z → bool.
Variable str_lower : str → str.
Variable decompress : bytes → list bytes.
Variable checksec : bytes → option pyval.

Let classify := probably_kernel_config unicode_isalnum unicode_isdecimal.
Let cascade := try_object_extract_ikconfig decompress.
Let detected := detection unicode_isalnum unicode_isdecimal str_lower
                  decompress.
Let run := process_object unicode_isalnum unicode_isdecimal str_lower
             decompress checksec.

Lemma classify_decodes raw :
  classify raw = true → ∃ text, Utf8.decode raw = Some text.
Proof.
  unfold classify, probably_kernel_config.
  destruct (Utf8.decode raw) as [text|]; [eauto|done].
Qed.

Lemma mime_with_record fo record :
  object_mime_is_plaintext (with_record fo record)
  = object_mime_is_plaintext fo.
Proof.
  unfold object_mime_is_plaintext, with_record. simpl.
  rewrite lookup_insert_ne by key_ne. done.
Qed.

Lemma kernel_image_with_record fo record :
  object_is_kernel_image str_lower (with_record fo record)
  = object_is_kernel_image str_lower fo.
Proof.
  unfold object_is_kernel_image, with_record. simpl.
  rewrite lookup_insert_ne by key_ne. done.
Qed.

Lemma add_kernel_config_run fo record raw text :
  Utf8.decode raw = Some text →
  add_kernel_config_to_analysis raw (with_record fo record)
  = (with_record fo
       (<[u "tags" := PDict {[u "IKCONFIG"
                               := PStr (u "Kernel Configuration")]}]>
          (<[u "kernel_config" := PStr text]>
             (<[u "is_kernel_config" := PBool true]> record))), Ok tt).
Proof.
  intros Hdec. unfold add_kernel_config_to_analysis, add_analysis_tag.
  unfold bind at 1. rewrite set_item_with_record.
  unfold bind at 1. unfold lift. rewrite Hdec.
  unfold bind at 1. rewrite set_item_with_record.
  by rewrite set_item_with_record.
Qed.

Lemma detect_run fo :
  detect unicode_isalnum unicode_isdecimal str_lower decompress
    (with_record fo ∅)
  = match detected fo with
    | Raise e => (with_record fo ∅, Raise e)
    | Ok None => (with_record fo ∅, Ok tt)
    | Ok (Some raw) =>
      match Utf8.decode raw with
      | Some text => (with_record fo (found_record text), Ok tt)
      | None => (with_record fo ∅, Raise UnicodeDecodeError)
      end
    end.
Proof.
  unfold detect, detected, detection. unfold bind at 1. unfold get.
  rewrite mime_with_record, kernel_image_with_record.
  change (binary (with_record fo ∅)) with (binary fo).
  change (file_name (with_record fo ∅)) with (file_name fo).
  fold classify cascade.
  destruct (object_mime_is_plaintext fo && classify (binary fo)) eqn:Hplain.
  - apply andb_true_iff in Hplain as [_ Hc].
    destruct (classify_decodes _ Hc) as [text Hdec]. rewrite Hdec.
    by apply add_kernel_config_run.
  - unfold bind. case_bool_decide.
    + unfold ret. destruct (classify (cascade (binary fo))) eqn:Hc; [|done].
      destruct (classify_decodes _ Hc) as [text Hdec]. rewrite Hdec.
      by apply add_kernel_config_run.
    + unfold lift.
      destruct (object_is_kernel_image str_lower fo) as [[|]|e]; try done.
      destruct (classify (cascade (binary fo))) eqn:Hc; [|done].
      destruct (classify_decodes _ Hc) as [text Hdec]. rewrite Hdec.
      by apply add_kernel_config_run.
Qed.

(** The whole call, by the outcome of the detection. *)
Lemma process_object_run fo :
  run fo
  = match detected fo with
    | Raise e => (with_record fo ∅, Raise e)
    | Ok None => (with_record fo (<[u "summary" := PList []]> ∅), Ok tt)
    | Ok (Some raw) =>
      match Utf8.decode raw with
      | Some text =>
        match check_kernel_config checksec text with
        | Ok report =>
          (with_record fo (<[u "checksec" := report]> (summary_of text)),
           Ok tt)
        | Raise e => (with_record fo (summary_of text), Raise e)
        end
      | None => (with_record fo ∅, Raise UnicodeDecodeError)
      end
    end.
Proof.
  unfold run, process_object. unfold bind at 1. rewrite set_analysis_fresh.
  unfold bind at 1. rewrite detect_run.
  destruct (detected fo) as [[raw|]|e]; [| |done].
  - destruct (Utf8.decode raw) as [text|]; [|done].
    unfold bind at 1. rewrite get_analysis_with_record.
    unfold bind at 1. rewrite set_item_with_record.
    unfold bind at 1. rewrite get_analysis_with_record.
    change (_get_summary (found_record text)) with [u "Kernel Config"].
    change (PList (PStr <$> [u "Kernel Config"]))
      with (PList [PStr (u "Kernel Config")]).
    fold (summary_of text).
    replace (summary_of text !! u "kernel_config") with (Some (PStr text))
      by (unfold summary_of, found_record;
          rewrite !lookup_insert_ne by key_ne;
          by rewrite lookup_insert_eq).
    unfold bind, lift.
    destruct (check_kernel_config checksec text); [|done].
    by rewrite set_item_with_record.
  - unfold bind at 1. rewrite get_analysis_with_record.
    unfold bind at 1. rewrite set_item_with_record.
    unfold bind at 1. rewrite get_analysis_with_record.
    by rewrite lookup_insert_ne by key_ne.
Qed.

End Orchestrator.

(** ** UTF-8 *)

Ltac bool_hyps :=
  repeat match goal with
  | H : _ && _ = true |- _ => apply andb_true_iff in H as [? ?]
  | H : negb _ = true |- _ => apply negb_true_iff in H
  | H : _ && _ = false |- _ => apply andb_false_iff in H as [?|?]
  | H : (_ <=? _) = true |- _ => apply Z.leb_le in H
  | H : (_ <? _) = true |- _ => apply Z.ltb_lt in H
  | H : (_ <? _) = false |- _ => apply Z.ltb_ge in H
  | H : (_ <=? _) = false |- _ => apply Z.leb_gt in H
  end.

Lemma byte_val_range (x : byte) : 0 ≤ byte_val x ≤ 255.
Proof.
  unfold byte_val. pose proof (Byte.to_N_bounded x). lia.
Qed.

Lemma push_Some c o text :
  Utf8.push c o = Some text → ∃ rest, o = Some rest ∧ text = c :: rest.
Proof. destruct o as [rest|]; [|done]. intros [= <-]. eauto. Qed.

Lemma scalar_intro c :
  0 ≤ c ≤ 1114111 → (c < 55296 ∨ 57343 < c) → Utf8.scalar c = true.
Proof.
  intros Hr Hs. unfold Utf8.scalar, Utf8.is_surrogate.
  rewrite !andb_true_iff, negb_true_iff, andb_false_iff.
  rewrite !Z.leb_le, !Z.leb_gt. lia.
Qed.




(** ** The [re] engine *)

Lemma last_or_nil prev : last_or prev [] = prev.
Proof. done. Qed.

Lemma last_or_cons prev c w : last_or prev (c :: w) = last_or (Some c) w.
Proof.
  unfold last_or. destruct w as [|x w]; [done|].
  change (last (c :: x :: w)) with (last (x :: w)).
  by destruct (last (x :: w)) eqn:Hl; [|by apply last_None in Hl].
Qed.

Lemma last_or_app prev w1 w2 :
  last_or prev (w1 ++ w2) = last_or (last_or prev w1) w2.
Proof.
  revert prev. induction w1 as [|c w1 IH]; intros prev; [done|].
  simpl. by rewrite !last_or_cons, IH.
Qed.

Lemma last_or_snoc prev w c : last_or prev (w ++ [c]) = Some c.
Proof. by rewrite last_or_app. Qed.

Lemma star_match_spec p prev s (k : cont) :
  is_Some (star_match p prev s k)
  ↔ ∃ w rest, s = w ++ rest ∧ Forall (λ c, p c = true) w
              ∧ is_Some (k (last_or prev w) rest).
Proof.
  revert prev. induction s as [|c s IH]; intros prev; simpl.
  - split.
    + intros Hk. exists [], []. by repeat split.
    + intros (w & rest & Heq & _ & Hk).
      symmetry in Heq. apply app_eq_nil in Heq as [-> ->]. done.
  - destruct (p c) eqn:Hp.
    + transitivity (is_Some (star_match p (Some c) s k)
                    ∨ is_Some (k prev (c :: s))).
      { destruct (star_match p (Some c) s k); split; eauto.
        intros [[? [=]]|?]; done. }
      rewrite IH. split.
      * intros [(w & rest & -> & Hw & Hk)|Hk].
        -- exists (c :: w), rest. rewrite last_or_cons. by repeat constructor.
        -- exists [], (c :: s). by repeat split.
      * intros (w & rest & Heq & Hw & Hk). destruct w as [|x w].
        -- right. simpl in Heq. by subst rest.
        -- left. injection Heq as <- ->. rewrite last_or_cons in Hk.
           apply Forall_cons in Hw as [_ Hw]. eauto.
    + split.
      * intros Hk. exists [], (c :: s). by repeat split.
      * intros (w & rest & Heq & Hw & Hk). destruct w as [|x w].
        -- simpl in Heq. by subst rest.
        -- injection Heq as <- ->. apply Forall_cons in Hw as [Hx _].
           congruence.
Qed.

(** The matcher finds a match exactly when the pattern has one that the
    continuation accepts. *)
Lemma rmatch_spec r prev s (k : cont) :
  is_Some (rmatch r prev s k)
  ↔ ∃ w rest, s = w ++ rest ∧ matches r prev w rest
              ∧ is_Some (k (last_or prev w) rest).
Proof.
  revert prev s k.
  induction r as [|c|p| | |r1 IH1 r2 IH2|r1 IH1 r2 IH2|p];
    intros prev s k; simpl.
  - split.
    + intros Hk. exists [], s. by repeat split.
    + by intros (w & rest & -> & -> & Hk).
  - destruct s as [|x s].
    + split; [by intros [? [=]]|].
      by intros (w & rest & Heq & -> & _).
    + destruct (x =? c) eqn:Hx.
      * apply Z.eqb_eq in Hx as ->. split.
        -- intros Hk. exists [c], s. by repeat split.
        -- intros (w & rest & Heq & -> & Hk). by injection Heq as <-.
      * apply Z.eqb_neq in Hx. split; [by intros [? [=]]|].
        intros (w & rest & Heq & -> & _). by injection Heq.
  - destruct s as [|x s].
    + split; [by intros [? [=]]|].
      by intros (w & rest & Heq & (c & -> & _) & _).
    + destruct (p x) eqn:Hx.
      * split.
        -- intros Hk. exists [x], s. repeat split; eauto.
        -- intros (w & rest & Heq & (c & -> & _) & Hk).
           by injection Heq as <- <-.
      * split; [by intros [? [=]]|].
        intros (w & rest & Heq & (c & -> & Hc) & _).
        injection Heq as <- <-. congruence.
  - destruct (at_bol prev) eqn:Hb.
    + split.
      * intros Hk. exists [], s. by repeat split.
      * by intros (w & rest & -> & [-> _] & Hk).
    + split; [by intros [? [=]]|].
      by intros (w & rest & _ & [_ ?] & _).
  - split.
    + destruct (at_eol s) eqn:He; [|by intros [? [=]]].
      intros Hk. exists [], s. by repeat split.
    + intros (w & rest & -> & [-> He] & Hk). simpl in *. by rewrite He.
  - rewrite IH1. split.
    + intros (w1 & rest1 & -> & H1 & Hk).
      apply IH2 in Hk as (w2 & rest & -> & H2 & Hk).
      exists (w1 ++ w2), rest. rewrite <- app_assoc, last_or_app.
      split; [done|]. split; [|done]. by exists w1, w2.
    + intros (w & rest & -> & (w1 & w2 & -> & H1 & H2) & Hk).
      exists w1, (w2 ++ rest). rewrite <- app_assoc. split; [done|].
      split; [done|]. apply IH2. exists w2, rest.
      by rewrite last_or_app in Hk.
  - transitivity (is_Some (rmatch r1 prev s k) ∨ is_Some (rmatch r2 prev s k)).
    { destruct (rmatch r1 prev s k); split; eauto.
      intros [[? [=]]|?]; done. }
    rewrite IH1, IH2. split.
    + intros [(w & rest & ? & ? & ?)|(w & rest & ? & ? & ?)];
        exists w, rest; eauto.
    + intros (w & rest & ? & [?|?] & ?); [left|right]; eauto.
  - apply star_match_spec.
Qed.

Lemma rmatch_top r prev s :
  is_Some (rmatch r prev s (accept false s))
  ↔ ∃ w rest, s = w ++ rest ∧ matches r prev w rest.
Proof.
  rewrite rmatch_spec. split.
  - intros (w & rest & ? & ? & _). eauto.
  - intros (w & rest & ? & ?). exists w, rest. eauto.
Qed.

Lemma findall_aux_nonempty fuel r prev s :
  (length s < fuel)%nat →
  findall_aux fuel r prev s false ≠ [] ↔ found_in r prev s.
Proof.
  revert prev s. induction fuel as [|fuel IH]; intros prev s Hlen; [lia|].
  simpl. destruct (rmatch r prev s (accept false s)) as [remaining|] eqn:Hm.
  - split; [|done]. intros _.
    destruct (proj1 (rmatch_top r prev s)) as (w & rest & -> & Hw);
      [by rewrite Hm|].
    by exists [], w, rest.
  - assert (¬ ∃ w rest, s = w ++ rest ∧ matches r prev w rest) as Hno.
    { intros H%rmatch_top. rewrite Hm in H. by destruct H. }
    destruct s as [|c s].
    + split; [done|]. intros (pre & w & rest & Heq & Hw).
      destruct pre; [|done]. destruct Hno. by exists w, rest.
    + simpl in Hlen. rewrite IH by lia. split.
      * intros (pre & w & rest & -> & Hw).
        exists (c :: pre), w, rest. by rewrite last_or_cons.
      * intros (pre & w & rest & Heq & Hw). destruct pre as [|x pre].
        -- destruct Hno. by exists w, rest.
        -- injection Heq as <- ->. rewrite last_or_cons in Hw.
           by exists pre, w, rest.
Qed.

(** [len(pattern.findall(text)) > 0] says that the pattern matches
    somewhere in the text. *)
Lemma findall_nonempty r s :
  (0 <? length (findall r s))%nat = true ↔ found_in r None s.
Proof.
  unfold findall.
  rewrite <- (findall_aux_nonempty (2 * length s + 2) r None s) by lia.
  rewrite Nat.ltb_lt. destruct (findall_aux _ _ _ _ _); simpl; split;
    try done; lia.
Qed.

Lemma matches_anchor_free r prev w rest :
  anchor_free r = true → matches r prev w rest ↔ lang r w.
Proof.
  revert prev w rest. induction r as [| | | | |r1 IH1 r2 IH2|r1 IH1 r2 IH2|];
    intros prev w rest Hfree; simpl in *; try done.
  - apply andb_true_iff in Hfree as [H1 H2]. split.
    + intros (w1 & w2 & -> & Hw1 & Hw2). exists w1, w2.
      split; [done|]. split; [by eapply IH1|by eapply IH2].
    + intros (w1 & w2 & -> & Hw1 & Hw2). exists w1, w2.
      split; [done|]. split; [by eapply IH1|by eapply IH2].
  - apply andb_true_iff in Hfree as [H1 H2].
    by rewrite IH1, IH2.
Qed.

Lemma matches_anchored body prev w rest :
  anchor_free body = true →
  matches (anchored body) prev w rest
  ↔ at_bol prev = true ∧ lang body w ∧ at_eol rest = true.
Proof.
  intros Hfree. unfold anchored. simpl. split.
  - intros (w1 & w2 & -> & [-> Hb] & w3 & w4 & -> & Hw & -> & He).
    simpl in *. rewrite app_nil_r.
    split; [done|]. split; [|done]. by eapply matches_anchor_free.
  - intros (Hb & Hw & He). exists [], w. split; [done|]. split; [done|].
    exists w, []. rewrite app_nil_r. split; [done|].
    split; [by apply matches_anchor_free|done].
Qed.

Lemma lang_Lit s w : lang (Lit s) w ↔ w = s.
Proof.
  revert w. induction s as [|c s IH]; intros w; simpl; [done|]. split.
  - intros (w1 & w2 & -> & -> & ->%IH). done.
  - intros ->. exists [c], s. by rewrite IH.
Qed.

Lemma lang_Plus p w :
  lang (Plus p) w ↔ w ≠ [] ∧ Forall (λ c, p c = true) w.
Proof.
  simpl. split.
  - intros (w1 & w2 & -> & (c & -> & Hc) & Hw). split; [done|].
    by constructor.
  - intros [Hne Hw]. destruct w as [|c w]; [done|].
    apply Forall_cons in Hw as [Hc Hw]. exists [c], w. eauto.
Qed.

(** ** Lines *)

Lemma lines_nonempty s : lines s ≠ [].
Proof.
  destruct s as [|c s]; simpl; [done|].
  destruct (c =? newline); [done|]. by destruct (lines s).
Qed.

(** A line sits between the start of the text or a newline and the end
    of the text or a newline, and holds no newline. *)
Lemma lines_split s before l after :
  lines s = before ++ l :: after →
  ∃ pre post,
    s = pre ++ l ++ post ∧ (newline ∉ l)
    ∧ (before = [] → pre = [])
    ∧ (before ≠ [] → ∃ pre', pre = pre' ++ [newline])
    ∧ at_eol post = true.
Proof.
  revert before l. induction s as [|c s IH]; intros before l; simpl.
  - intros Heq. destruct before as [|? [|? ?]]; try done.
    injection Heq as <- <-. exists [], []. repeat split; try done.
    by intros ?%elem_of_nil.
  - destruct (c =? newline) eqn:Hc.
    + apply Z.eqb_eq in Hc as ->. destruct before as [|x before].
      * intros [= <- <-]. exists [], (newline :: s).
        repeat split; try done. by intros ?%elem_of_nil.
      * intros [= <- Heq].
        destruct (IH _ _ Heq) as (pre & post & -> & Hl & Hnil & Hcons & He).
        exists (newline :: pre), post. repeat split; try done.
        intros _. destruct before as [|y before].
        -- rewrite Hnil by done. by exists [].
        -- destruct Hcons as [pre' ->]; [done|]. by exists (newline :: pre').
    + apply Z.eqb_neq in Hc.
      destruct (lines s) as [|l0 ls] eqn:Hls; [by apply lines_nonempty in Hls|].
      destruct before as [|x before].
      * intros [= <- <-].
        destruct (IH [] l0 eq_refl) as (pre & post & -> & Hl & Hnil & _ & He).
        rewrite Hnil by done. exists [], post. repeat split; try done.
        intros [?|?]%elem_of_cons; done.
      * intros [= <- ->].
        destruct (IH (l0 :: before) l eq_refl)
          as (pre & post & -> & Hl & _ & Hcons & He).
        destruct Hcons as [pre' ->]; [done|].
        exists (c :: pre' ++ [newline]), post. repeat split; try done.
        intros _. by exists (c :: pre').
Qed.

Lemma lines_single l : newline ∉ l → lines l = [l].
Proof.
  induction l as [|c l IH]; [done|]. intros Hl.
  apply not_elem_of_cons in Hl as [Hc Hl]. simpl.
  destruct (c =? newline) eqn:Heq; [by apply Z.eqb_eq in Heq|].
  by rewrite IH.
Qed.

Lemma lines_app_newline s1 s2 :
  lines (s1 ++ newline :: s2) = lines s1 ++ lines s2.
Proof.
  induction s1 as [|c s1 IH]; [done|]. simpl.
  destruct (c =? newline); [by rewrite IH|]. rewrite IH.
  destruct (lines s1) eqn:Hl; [by apply lines_nonempty in Hl|done].
Qed.

(** The lines of a text are the newline-free pieces that start at the
    start of the text or after a newline and end at the end of the text
    or before a newline. *)
Lemma elem_of_lines s l :
  l ∈ lines s
  ↔ (newline ∉ l)
    ∧ ∃ pre post, s = pre ++ l ++ post
                  ∧ at_bol (last_or None pre) = true ∧ at_eol post = true.
Proof.
  split.
  - intros (before & after & Heq)%list_elem_of_split.
    destruct (lines_split _ _ _ _ Heq)
      as (pre & post & -> & Hl & Hnil & Hcons & He).
    split; [done|]. exists pre, post. repeat split; try done.
    destruct before as [|x before].
    + by rewrite Hnil.
    + destruct Hcons as [pre' ->]; [done|]. by rewrite last_or_snoc.
  - intros (Hl & pre & post & -> & Hb & He).
    assert (l ∈ lines (l ++ post)) as Hin.
    { destruct post as [|c post].
      - rewrite app_nil_r, lines_single by done. by left.
      - simpl in He. apply Z.eqb_eq in He as ->.
        rewrite lines_app_newline, lines_single by done. by left. }
    induction pre as [|c pre' _] using rev_ind; [done|].
    rewrite last_or_snoc in Hb. simpl in Hb. apply Z.eqb_eq in Hb as ->.
    rewrite <- app_assoc. simpl. rewrite lines_app_newline.
    apply elem_of_app. by right.
Qed.

(** A pattern [^body$] whose body never matches a newline is found in a
    text exactly when its body matches a whole line. *)
Lemma anchored_found_in body s :
  anchor_free body = true →
  (∀ w, lang body w → newline ∉ w) →
  found_in (anchored body) None s ↔ ∃ l, l ∈ lines s ∧ lang body l.
Proof.
  intros Hfree Hnl. unfold found_in. split.
  - intros (pre & w & rest & -> & Hm).
    apply matches_anchored in Hm as (Hb & Hw & He); [|done].
    exists w. split; [|done]. apply elem_of_lines.
    split; [by apply Hnl|]. by exists pre, rest.
  - intros (l & Hin & Hl).
    apply elem_of_lines in Hin as (_ & pre & post & -> & Hb & He).
    exists pre, l, post. split; [done|]. by apply matches_anchored.
Qed.

(** ** Claims about the classifier *)

Lemma kernel_body_lang w :
  lang kernel_body w
  ↔ ∃ anything,
      w = u "# Linux" ++ anything ++ u " Kernel Configuration"
      ∧ Forall (λ c, dot c = true) anything.
Proof.
  unfold kernel_body, seq. split.
  - intros (w1 & w2 & -> & ->%lang_Lit & w3 & w4 & -> & Hdot
            & w5 & w6 & -> & ->%lang_Lit & ->).
    exists w3. by rewrite app_nil_r.
  - intros (anything & -> & Hdot).
    exists (u "# Linux"), (anything ++ u " Kernel Configuration").
    split; [done|]. split; [by apply lang_Lit|].
    exists anything, (u " Kernel Configuration"). split; [done|].
    split; [done|]. exists (u " Kernel Configuration"), [].
    split; [by rewrite app_nil_r|]. split; [by apply lang_Lit|done].
Qed.

Lemma dot_no_newline w : Forall (λ c, dot c = true) w ↔ newline ∉ w.
Proof.
  induction w as [|c w IH].
  - split; [by intros _ ?%elem_of_nil|constructor].
  - rewrite Forall_cons, not_elem_of_cons, IH. unfold dot.
    rewrite negb_true_iff, Z.eqb_neq. split; intros [? ?]; split; auto.
Qed.

Lemma class_no_newline (p : Z → bool) w :
  p newline = false → Forall (λ c, p c = true) w → newline ∉ w.
Proof.
  intros Hp Hw Hin. rewrite Forall_forall in Hw.
  specialize (Hw _ Hin). congruence.
Qed.

Lemma kernel_body_no_newline w : lang kernel_body w → newline ∉ w.
Proof.
  intros (anything & -> & Hdot)%kernel_body_lang.
  apply dot_no_newline in Hdot.
  rewrite !not_elem_of_app. split; [|split; [done|]].
  - apply (bool_decide_unpack _). by vm_compute.
  - apply (bool_decide_unpack _). by vm_compute.
Qed.

(** The banner pattern is found in a text exactly when one of its lines
    is a banner line. *)
Lemma banner_found text :
  found_in kernel_pattern None text ↔ ∃ l, l ∈ lines text ∧ banner_line l.
Proof.
  unfold kernel_pattern.
  rewrite anchored_found_in; [|done|apply kernel_body_no_newline].
  split.
  - intros (l & Hin & (anything & Hl & _)%kernel_body_lang).
    exists l. split; [done|]. by exists anything.
  - intros (l & Hin & anything & Hl). exists l. split; [done|].
    apply kernel_body_lang. exists anything. split; [done|].
    apply elem_of_lines in Hin as [Hnl _]. subst l.
    rewrite !not_elem_of_app in Hnl. apply dot_no_newline. tauto.
Qed.

Section Classifier.
Variable unicode_isalnum unicode_isdecimal : Z → bool.

Let word := is_word unicode_isalnum.
Let digit := is_digit unicode_isdecimal.
Let classify := probably_kernel_config unicode_isalnum unicode_isdecimal.

Lemma config_body_lang w :
  lang (config_body unicode_isalnum unicode_isdecimal) w
  ↔ directive_line unicode_isalnum unicode_isdecimal w.
Proof.
  unfold config_body, seq, directive_line. fold word digit. split.
  - intros (w1 & w2 & -> & Hprefix & w3 & w4 & -> & -> & w5 & w6 & ->
            & [Hne Hname]%lang_Plus & w7 & w8 & -> & -> & w9 & w10 & ->
            & Hvalue & ->).
    exists w1, w5, w9. rewrite app_nil_r. split; [done|]. split.
    { destruct Hprefix as [->%lang_Lit| ->%lang_Lit]; auto. }
    split; [done|]. split; [done|].
    destruct Hvalue as [[? ?]%lang_Plus|(c & -> & Hc)]; [by left|right].
    unfold is_ymn in Hc.
    apply orb_true_iff in Hc as [[->%Z.eqb_eq| ->%Z.eqb_eq]%orb_true_iff
                                 | ->%Z.eqb_eq]; auto.
  - intros (prefix & name & value & -> & Hprefix & Hne & Hname & Hvalue).
    exists prefix, (u "_" ++ name ++ u "=" ++ value). split; [done|]. split.
    { destruct Hprefix as [-> | ->]; [left|right]; by apply lang_Lit. }
    exists (u "_"), (name ++ u "=" ++ value). split; [done|].
    split; [done|].
    exists name, (u "=" ++ value). split; [done|].
    split; [by apply lang_Plus|].
    exists (u "="), value. split; [done|]. split; [done|].
    exists value, []. split; [by rewrite app_nil_r|]. split; [|done].
    destruct Hvalue as [[? ?]|[->|[->| ->]]].
    + left. by apply lang_Plus.
    + right. by exists 121.
    + right. by exists 109.
    + right. by exists 110.
Qed.

Lemma directive_no_newline w :
  directive_line unicode_isalnum unicode_isdecimal w → newline ∉ w.
Proof.
  intros (prefix & name & value & -> & Hprefix & _ & Hname & Hvalue).
  rewrite !not_elem_of_app. repeat split.
  - destruct Hprefix as [-> | ->]; apply (bool_decide_unpack _);
      by vm_compute.
  - apply (bool_decide_unpack _). by vm_compute.
  - by apply (class_no_newline (is_word unicode_isalnum)).
  - apply (bool_decide_unpack _). by vm_compute.
  - destruct Hvalue as [[_ Hd]|[->|[->| ->]]];
      [by apply (class_no_newline (is_digit unicode_isdecimal))|..];
      apply (bool_decide_unpack _); by vm_compute.
Qed.

(** The directive pattern is found in a text exactly when one of its
    lines is a directive line. *)
Lemma directive_found text :
  found_in (config_pattern unicode_isalnum unicode_isdecimal) None text
  ↔ ∃ l, l ∈ lines text
         ∧ directive_line unicode_isalnum unicode_isdecimal l.
Proof.
  unfold config_pattern. rewrite anchored_found_in; [|done|].
  - split; intros (l & Hin & Hl); exists l; split; try done;
      by apply config_body_lang.
  - intros w Hw%config_body_lang. by apply directive_no_newline.
Qed.

Lemma classify_iff raw :
  classify raw = true
  ↔ ∃ text,
      Utf8.decode raw = Some text
      ∧ (∃ l, l ∈ lines text ∧ banner_line l)
      ∧ (∃ l, l ∈ lines text
              ∧ directive_line unicode_isalnum unicode_isdecimal l).
Proof.
  unfold classify, probably_kernel_config.
  destruct (Utf8.decode raw) as [text|].
  - rewrite andb_true_iff, !findall_nonempty, banner_found, directive_found.
    split; [by exists text|]. by intros (? & [= <-] & ?).
  - split; [done|]. by intros (? & [=] & _).
Qed.

Lemma classify_false raw :
  (∀ text, Utf8.decode raw = Some text →
           (∃ l, l ∈ lines text ∧ banner_line l) →
           (∃ l, l ∈ lines text
                 ∧ directive_line unicode_isalnum unicode_isdecimal l) →
           False) →
  classify raw = false.
Proof.
  intros Hno. apply not_true_is_false.
  intros (text & Hdec & Hb & Hd)%classify_iff. by eapply Hno.
Qed.

(** C2: the classifier accepts a buffer exactly when the buffer decodes
    as UTF-8 and the text has a banner line and a directive line; so it
    rejects a buffer that does not decode, a text without directive line
    and a text without banner line. *)
Theorem classifier_accepts_banner_and_directive (raw : bytes) :
  (classify raw = true
   ↔ ∃ text,
       Utf8.decode raw = Some text
       ∧ (∃ l, l ∈ lines text ∧ banner_line l)
       ∧ (∃ l, l ∈ lines text
               ∧ directive_line unicode_isalnum unicode_isdecimal l))
  ∧ (Utf8.decode raw = None → classify raw = false)
  ∧ (∀ text, Utf8.decode raw = Some text →
             (∀ l, l ∈ lines text →
                   ¬ directive_line unicode_isalnum unicode_isdecimal l) →
             classify raw = false)
  ∧ (∀ text, Utf8.decode raw = Some text →
             (∀ l, l ∈ lines text → ¬ banner_line l) →
             classify raw = false).
Proof.
  split; [apply classify_iff|]. split; [|split].
  - intros Hdec. apply classify_false. intros text. by rewrite Hdec.
  - intros text Hdec Hno. apply classify_false.
    intros text'. rewrite Hdec. intros [= <-] _ (l & Hin & Hl).
    by apply (Hno l).
  - intros text Hdec Hno. apply classify_false.
    intros text'. rewrite Hdec. intros [= <-] (l & Hin & Hl) _.
    by apply (Hno l).
Qed.

(** C9: matching is case-sensitive. A text in which every line that reads
    as a banner line up to the case of its letters is not one as written
    is rejected, and so is a text in which every line that reads as a
    directive line up to case is not one as written; the sample
    configuration is accepted, and is rejected once its banner, or the
    prefix of its directives, is put in lower case. *)
Theorem classifier_is_case_sensitive (raw : bytes) (text : str) :
  Utf8.decode raw = Some text →
  ((∀ l, l ∈ lines text →
         (∃ l', same_modulo_case l l' ∧ banner_line l') →
         ¬ banner_line l) →
   classify raw = false)
  ∧ ((∀ l, l ∈ lines text →
           (∃ l', same_modulo_case l l'
                  ∧ directive_line unicode_isalnum unicode_isdecimal l') →
           ¬ directive_line unicode_isalnum unicode_isdecimal l) →
     classify raw = false)
  ∧ (classify sample_config = true
     ∧ same_modulo_case (as_text lowercase_banner_config)
         (as_text sample_config)
     ∧ classify lowercase_banner_config = false
     ∧ same_modulo_case (as_text lowercase_prefix_config)
         (as_text sample_config)
     ∧ classify lowercase_prefix_config = false).
Proof.
  intros Hdec. split; [|split].
  - intros Hcase. apply classify_false.
    intros text'. rewrite Hdec. intros [= <-] (l & Hin & Hl) _.
    apply (Hcase l); [done| |done]. by exists l.
  - intros Hcase. apply classify_false.
    intros text'. rewrite Hdec. intros [= <-] _ (l & Hin & Hl).
    apply (Hcase l); [done| |done]. by exists l.
  - repeat split; vm_compute; reflexivity.
Qed.

End Classifier.

Lemma classifier_accepts_banner_and_directive_witness :
  probably_kernel_config ascii_only ascii_only sample_config = true
  ∧ probably_kernel_config ascii_only ascii_only [xff] = false
  ∧ probably_kernel_config ascii_only ascii_only banner_only = false.
Proof.
  destruct (classifier_accepts_banner_and_directive ascii_only ascii_only
              sample_config) as [Haccept _].
  destruct (classifier_accepts_banner_and_directive ascii_only ascii_only
              [xff]) as (_ & Hundecoded & _).
  destruct (classifier_accepts_banner_and_directive ascii_only ascii_only
              banner_only) as (_ & _ & Hbanner_only & _).
  split; [|split].
  - apply Haccept. exists (as_text sample_config).
    assert (lines (as_text sample_config)
            = [u "# Linux 5.4.0 Kernel Configuration"; u "CONFIG_FOO=y";
               u "# CONFIG_BAR=n"; []]) as Hlines
      by (vm_compute; reflexivity).
    rewrite Hlines. split; [vm_compute; reflexivity|]. split.
    + exists (u "# Linux 5.4.0 Kernel Configuration").
      split; [by left|]. by exists (u " 5.4.0").
    + exists (u "CONFIG_FOO=y"). split; [by right; left|].
      exists (u "CONFIG"), (u "FOO"), (u "y").
      split; [done|]. split; [by left|]. split; [done|].
      split; [by repeat constructor|]. by right; left.
  - apply Hundecoded. vm_compute. reflexivity.
  - apply (Hbanner_only (as_text banner_only)); [vm_compute; reflexivity|].
    assert (lines (as_text banner_only)
            = [u "# Linux 5.4.0 Kernel Configuration"; []]) as Hlines
      by (vm_compute; reflexivity).
    rewrite Hlines. intros l Hl (prefix & name & value & Heq & Hprefix & _).
    apply elem_of_cons in Hl as [->|Hl];
      [|apply elem_of_cons in Hl as [->|Hl]; [|by apply elem_of_nil in Hl]];
      destruct Hprefix as [-> | ->]; vm_compute in Heq; discriminate Heq.
Defined.

Lemma classifier_is_case_sensitive_witness :
  Utf8.decode lowercase_banner_config
  = Some (as_text lowercase_banner_config)
  ∧ probably_kernel_config ascii_only ascii_only lowercase_banner_config
    = false.
Proof.
  assert (Utf8.decode lowercase_banner_config
          = Some (as_text lowercase_banner_config)) as Hdec
    by (vm_compute; reflexivity).
  split; [exact Hdec|].
  destruct (classifier_is_case_sensitive ascii_only ascii_only _ _ Hdec)
    as [Hbanner _].
  apply Hbanner.
  assert (lines (as_text lowercase_banner_config)
          = [u "# linux 5.4.0 kernel configuration"; u "CONFIG_FOO=y";
             u "# CONFIG_BAR=n"; []]) as Hlines
    by (vm_compute; reflexivity).
  rewrite Hlines. intros l Hl _ (anything & Heq).
  repeat (apply elem_of_cons in Hl as [->|Hl];
          [vm_compute in Heq; discriminate Heq|]).
  by apply elem_of_nil in Hl.
Defined.

(** ** The signature scanner and the cascade *)

Section Scanner.
Context {A : Type} `{EqDecision A}.
Implicit Types sub s : list A.

Lemma startswith_spec sub s :
  startswith sub s = true ↔ ∃ post, s = sub ++ post.
Proof.
  revert s. induction sub as [|x sub IH]; intros s; simpl.
  - split; [eauto|done].
  - destruct s as [|y s].
    + split; [done|]. by intros [post ?].
    + rewrite andb_true_iff, bool_decide_eq_true, IH. split.
      * intros [-> [post ->]]. eauto.
      * intros [post [= -> ->]]. eauto.
Qed.

Lemma occurs_cons_inv sub x s :
  startswith sub (x :: s) = false → occurs sub (x :: s) → occurs sub s.
Proof.
  intros Hno (pre & post & Heq). destruct pre as [|y pre].
  - assert (startswith sub (x :: s) = true) as Hyes
      by (apply startswith_spec; eauto).
    congruence.
  - injection Heq as -> ->. by exists pre, post.
Qed.

(** [find_from] either reports that there is no occurrence, or gives the
    offset of the first one. *)
Lemma find_from_cases sub s i :
  (find_from sub s i = -1 ∧ ¬ occurs sub s)
  ∨ (∃ pre post, first_occurrence sub s pre post
                 ∧ find_from sub s i = i + Z.of_nat (length pre)).
Proof.
  revert i. induction s as [|x s IH]; intros i; simpl.
  - destruct (startswith sub []) eqn:Hs.
    + right. apply startswith_spec in Hs as [post Hpost].
      exists [], post. split; [|simpl; lia].
      split; [done|]. intros; simpl; lia.
    + left. split; [done|]. intros (pre & post & Heq).
      destruct pre; [|done].
      assert (startswith sub [] = true) by (apply startswith_spec; eauto).
      congruence.
  - destruct (startswith sub (x :: s)) eqn:Hs.
    + right. apply startswith_spec in Hs as [post Hpost].
      exists [], post. split; [|simpl; lia].
      split; [done|]. intros; simpl; lia.
    + destruct (IH (i + 1)) as [[Hnone Hno]|(pre & post & [Heq Hmin] & Hfind)].
      * left. split; [done|]. intros Hocc. apply Hno.
        by apply (occurs_cons_inv sub x s).
      * right. exists (x :: pre), post. split.
        -- split; [by rewrite Heq|]. intros pre' post' Heq'.
           destruct pre' as [|y pre'].
           ++ assert (startswith sub (x :: s) = true)
                by (apply startswith_spec; eauto).
              congruence.
           ++ injection Heq' as -> Heq'. simpl.
              specialize (Hmin _ _ Heq'). lia.
        -- rewrite Hfind. simpl length. lia.
Qed.

Lemma find_absent s sub : (find s sub <? 0) = true ↔ ¬ occurs sub s.
Proof.
  unfold find.
  destruct (find_from_cases sub s 0)
    as [[-> Hno]|(pre & post & [Heq _] & ->)].
  - done.
  - split.
    + intros ?%Z.ltb_lt. lia.
    + intros []. by exists pre, post.
Qed.

Lemma first_occurrence_unique sub s pre post pre' post' :
  first_occurrence sub s pre post → first_occurrence sub s pre' post' →
  pre = pre' ∧ post = post'.
Proof.
  intros [Heq Hmin] [Heq' Hmin'].
  assert (length pre = length pre') as Hlen.
  { specialize (Hmin _ _ Heq'). specialize (Hmin' _ _ Heq). lia. }
  rewrite Heq in Heq'.
  apply app_inj_1 in Heq' as [-> Hrest]; [|done].
  by apply app_inv_head in Hrest as ->.
Qed.

(** The slice taken at the offset that [find] gives starts with the first
    occurrence. *)
Lemma slice_at_first_occurrence sub s pre post :
  first_occurrence sub s pre post →
  slice_from s (find s sub) = sub ++ post.
Proof.
  intros Hfirst. unfold find, slice_from.
  destruct (find_from_cases sub s 0)
    as [[_ Hno]|(pre' & post' & Hfirst' & ->)].
  - destruct Hno. destruct Hfirst as [Heq _]. by exists pre, post.
  - destruct (first_occurrence_unique _ _ _ _ _ _ Hfirst Hfirst')
      as [<- <-].
    destruct Hfirst as [-> _].
    replace (Z.to_nat (0 + Z.of_nat (length pre))) with (length pre) by lia.
    by rewrite drop_app_length.
Qed.

Lemma occurs_first sub s :
  occurs sub s → ∃ pre post, first_occurrence sub s pre post.
Proof.
  intros Hocc.
  destruct (find_from_cases sub s 0) as [[_ Hno]|(pre & post & ? & _)];
    [done|eauto].
Qed.
End Scanner.

Section Cascade.
Variable decompress : bytes → list bytes.
Let cascade := try_object_extract_ikconfig decompress.

(** The second half of the cascade, once the container is known. *)
Lemma cascade_outer raw :
  cascade raw
  = match (if find raw MAGIC_WORD <? 0 then head (decompress raw)
           else Some raw) with
    | None => []
    | Some container =>
      if find container MAGIC_WORD <? 0 then []
      else default [] (head (decompress
                               (slice_from container
                                  (find container MAGIC_WORD))))
    end.
Proof.
  unfold cascade, try_object_extract_ikconfig.
  destruct (find raw MAGIC_WORD <? 0).
  - destruct (decompress raw) as [|first rest]; [done|]. simpl.
    destruct (find first MAGIC_WORD <? 0); [done|].
    by destruct (decompress _).
  - destruct (find raw MAGIC_WORD <? 0); [done|].
    by destruct (decompress _).
Qed.

Lemma cascade_container raw container :
  is_container decompress raw container →
  (if find raw MAGIC_WORD <? 0 then head (decompress raw) else Some raw)
  = Some container.
Proof.
  intros [[Hocc ->]|[Hno [rest Hdec]]].
  - destruct (find raw MAGIC_WORD <? 0) eqn:Hf; [|done].
    by apply find_absent in Hf.
  - apply find_absent in Hno. by rewrite Hno, Hdec.
Qed.

Lemma cascade_sound raw result :
  extract_embedded_config decompress raw result → result = cascade raw.
Proof.
  intros Hspec. rewrite cascade_outer.
  destruct Hspec as [Hno Hdec|container Hc Hno
                     |container pre post Hc Hfirst Hdec
                     |container pre post first rest Hc Hfirst Hdec].
  - apply find_absent in Hno. by rewrite Hno, Hdec.
  - rewrite (cascade_container _ _ Hc).
    apply find_absent in Hno. by rewrite Hno.
  - rewrite (cascade_container _ _ Hc).
    destruct (find container MAGIC_WORD <? 0) eqn:Hf; [done|].
    by rewrite (slice_at_first_occurrence _ _ _ _ Hfirst), Hdec.
  - rewrite (cascade_container _ _ Hc).
    destruct (find container MAGIC_WORD <? 0) eqn:Hf.
    { apply find_absent in Hf. destruct Hf. destruct Hfirst as [Heq _].
      by exists pre, post. }
    by rewrite (slice_at_first_occurrence _ _ _ _ Hfirst), Hdec.
Qed.

Lemma cascade_complete raw :
  extract_embedded_config decompress raw (cascade raw).
Proof.
  rewrite cascade_outer.
  assert (∀ container,
            is_container decompress raw container →
            extract_embedded_config decompress raw
              (if find container MAGIC_WORD <? 0 then []
               else default [] (head (decompress
                                        (slice_from container
                                           (find container MAGIC_WORD))))))
    as Hinner.
  { intros container Hc.
    destruct (find container MAGIC_WORD <? 0) eqn:Hf.
    - apply find_absent in Hf. by eapply signature_absent.
    - assert (occurs MAGIC_WORD container) as Hocc.
      { destruct (decide ((find container MAGIC_WORD <? 0) = true)) as [Ht|Ht];
          [congruence|].
        unfold find in *.
        destruct (find_from_cases MAGIC_WORD container 0)
          as [[Hm _]|(pre & post & [Heq _] & _)].
        - rewrite Hm in Hf. done.
        - by exists pre, post. }
      destruct (occurs_first _ _ Hocc) as (pre & post & Hfirst).
      rewrite (slice_at_first_occurrence _ _ _ _ Hfirst).
      destruct (decompress (MAGIC_WORD ++ post)) as [|first rest] eqn:Hdec.
      + by eapply no_candidate.
      + by eapply first_candidate. }
  destruct (find raw MAGIC_WORD <? 0) eqn:Hf.
  - apply find_absent in Hf.
    destruct (decompress raw) as [|first rest] eqn:Hdec.
    + by apply no_container.
    + simpl. apply Hinner. right. eauto.
  - apply Hinner. left. split; [|done].
    unfold find in *.
    destruct (find_from_cases MAGIC_WORD raw 0)
      as [[Hm _]|(pre & post & [Heq _] & _)].
    + rewrite Hm in Hf. done.
    + by exists pre, post.
Qed.

(** C3: the cascade returns exactly what the four steps of the algorithm
    give; in particular it returns empty bytes for a buffer in which the
    signature occurs neither in the raw bytes nor in the first candidate
    of decompressing them. *)
Theorem cascade_behaves_as_specified (raw : bytes) :
  (∀ result,
     extract_embedded_config decompress raw result ↔ result = cascade raw)
  ∧ (¬ occurs MAGIC_WORD raw →
     (∀ first rest, decompress raw = first :: rest →
                    ¬ occurs MAGIC_WORD first) →
     cascade raw = []).
Proof.
  split.
  - intros result. split; [apply cascade_sound|].
    intros ->. apply cascade_complete.
  - intros Hraw Hfirst. symmetry. apply cascade_sound.
    destruct (decompress raw) as [|first rest] eqn:Hdec.
    + by apply no_container.
    + apply (signature_absent _ _ first); [|by eapply Hfirst].
      right. eauto.
Qed.
End Cascade.

Lemma cascade_behaves_as_specified_witness :
  try_object_extract_ikconfig no_codec sample_config = []
  ∧ extract_embedded_config sample_codec sample_image
      (try_object_extract_ikconfig sample_codec sample_image).
Proof.
  split.
  - apply (cascade_behaves_as_specified no_codec sample_config).
    + apply find_absent. vm_compute. reflexivity.
    + intros first rest Hdec. vm_compute in Hdec. discriminate Hdec.
  - by apply (cascade_behaves_as_specified sample_codec sample_image).
Defined.

(** ** Claims about the hardening result filter *)

(** C4, as the code has it: on a report that has both sections (each a
    mapping) the filter raises nothing and leaves in each section no key
    outside its allow-list; on a report that lacks [kernel], or lacks
    [grsecurity], the filter raises [KeyError]. *)
Theorem whitelist_configs_removes_or_raises (d : gmap str pyval) :
  (∀ kernel grsecurity,
     d !! u "kernel" = Some (PDict kernel) →
     d !! u "grsecurity" = Some (PDict grsecurity) →
     ∃ d' kernel' grsecurity',
       whitelist_configs (PDict d) = (PDict d', None)
       ∧ d' !! u "kernel" = Some (PDict kernel')
       ∧ d' !! u "grsecurity" = Some (PDict grsecurity')
       ∧ (∀ k, k ∉ KERNEL_WHITELIST → kernel' !! k = None)
       ∧ (∀ k, k ∉ GRSECURITY_WHITELIST → grsecurity' !! k = None))
  ∧ (d !! u "kernel" = None →
     whitelist_configs (PDict d) = (PDict d, Some KeyError))
  ∧ (∀ kernel,
       d !! u "kernel" = Some (PDict kernel) →
       d !! u "grsecurity" = None →
       (whitelist_configs (PDict d)).2 = Some KeyError).
Proof.
  split; [|split].
  - intros kernel grsecurity Hk Hg.
    eexists _, _, _. split; [by apply whitelist_configs_sections|].
    split; [|split; [|split]].
    + rewrite lookup_insert_ne by (symmetry; apply section_names_differ).
      apply lookup_insert_eq.
    + apply lookup_insert_eq.
    + intros k Hk'. rewrite filter_dict_lookup.
      by rewrite bool_decide_eq_false_2.
    + intros k Hk'. rewrite filter_dict_lookup.
      by rewrite bool_decide_eq_false_2.
  - intros Hk. unfold whitelist_configs. by rewrite Hk.
  - intros kernel Hk Hg. unfold whitelist_configs. rewrite Hk. simpl.
    rewrite lookup_insert_ne by apply section_names_differ. by rewrite Hg.
Qed.

Lemma whitelist_configs_removes_or_raises_witness :
  (∃ d', whitelist_configs (PDict sample_report) = (PDict d', None))
  ∧ whitelist_configs (PDict ∅) = (PDict ∅, Some KeyError).
Proof.
  destruct (whitelist_configs_removes_or_raises sample_report) as [Hboth _].
  destruct (whitelist_configs_removes_or_raises ∅) as (_ & Hnone & _).
  split.
  - destruct (Hboth sample_kernel ∅) as (d' & _ & _ & Hrun & _);
      [vm_compute; reflexivity..|].
    by exists d'.
  - apply Hnone. reflexivity.
Defined.

(** C4 as stated fails: a report without its [grsecurity] section is not
    passed through without error, the filter raises [KeyError]. *)
Lemma whitelist_configs_absent_section_raises :
  (whitelist_configs (PDict {[ u "kernel" := PDict ∅ ]})).2 = Some KeyError.
Proof. vm_compute. reflexivity. Qed.

(** C7: on a report with both sections the filter raises nothing, and
    filtering the filtered report again changes nothing. *)
Theorem whitelist_configs_idempotent (d kernel grsecurity : gmap str pyval) :
  d !! u "kernel" = Some (PDict kernel) →
  d !! u "grsecurity" = Some (PDict grsecurity) →
  ∃ filtered,
    whitelist_configs (PDict d) = (filtered, None)
    ∧ whitelist_configs filtered = (filtered, None).
Proof.
  intros Hk Hg.
  rewrite (whitelist_configs_sections d kernel grsecurity Hk Hg).
  set (kernel' := filter_dict KERNEL_WHITELIST kernel).
  set (grsecurity' := filter_dict GRSECURITY_WHITELIST grsecurity).
  eexists. split; [reflexivity|].
  rewrite (whitelist_configs_sections _ kernel' grsecurity').
  - unfold kernel', grsecurity'. rewrite !filter_dict_idemp.
    apply (f_equal (λ m, (PDict m, @None exn))).
    apply map_eq. intros name.
    destruct (decide (name = u "grsecurity")) as [->|Hg'].
    { by rewrite !lookup_insert_eq. }
    rewrite !(lookup_insert_ne _ (u "grsecurity")) by done.
    destruct (decide (name = u "kernel")) as [->|Hk'].
    { by rewrite !lookup_insert_eq. }
    by rewrite !lookup_insert_ne by done.
  - rewrite lookup_insert_ne by apply not_eq_sym, section_names_differ.
    apply lookup_insert_eq.
  - apply lookup_insert_eq.
Qed.

Lemma whitelist_configs_idempotent_witness :
  ∃ filtered,
    whitelist_configs (PDict sample_report) = (filtered, None)
    ∧ whitelist_configs filtered = (filtered, None).
Proof.
  apply (whitelist_configs_idempotent sample_report sample_kernel ∅);
    vm_compute; reflexivity.
Defined.

(** C10: on a report with both sections the filter only deletes. Every
    allow-listed key of a section keeps its value, whatever is in a
    section afterwards was there before with the same value, and the
    entries of the report other than the two sections are as before. *)
Theorem whitelist_configs_only_deletes (d kernel grsecurity : gmap str pyval) :
  d !! u "kernel" = Some (PDict kernel) →
  d !! u "grsecurity" = Some (PDict grsecurity) →
  ∃ d' kernel' grsecurity',
    whitelist_configs (PDict d) = (PDict d', None)
    ∧ d' !! u "kernel" = Some (PDict kernel')
    ∧ d' !! u "grsecurity" = Some (PDict grsecurity')
    ∧ (∀ k, k ∈ KERNEL_WHITELIST → kernel' !! k = kernel !! k)
    ∧ (∀ k, k ∈ GRSECURITY_WHITELIST → grsecurity' !! k = grsecurity !! k)
    ∧ (∀ k v, kernel' !! k = Some v → kernel !! k = Some v)
    ∧ (∀ k v, grsecurity' !! k = Some v → grsecurity !! k = Some v)
    ∧ (∀ name, name ≠ u "kernel" → name ≠ u "grsecurity" →
               d' !! name = d !! name).
Proof.
  intros Hk Hg. eexists _, _, _.
  split; [by apply whitelist_configs_sections|].
  split; [|split].
  { rewrite lookup_insert_ne by (symmetry; apply section_names_differ).
    apply lookup_insert_eq. }
  { apply lookup_insert_eq. }
  repeat split.
  - intros k Hin. rewrite filter_dict_lookup. by rewrite bool_decide_eq_true_2.
  - intros k Hin. rewrite filter_dict_lookup. by rewrite bool_decide_eq_true_2.
  - intros k v. rewrite filter_dict_lookup. by case_bool_decide.
  - intros k v. rewrite filter_dict_lookup. by case_bool_decide.
  - intros name Hn1 Hn2. by rewrite !lookup_insert_ne.
Qed.

Lemma whitelist_configs_only_deletes_witness :
  ∃ d' kernel',
    whitelist_configs (PDict sample_report) = (PDict d', None)
    ∧ d' !! u "kernel" = Some (PDict kernel')
    ∧ kernel' !! u "gcc_stack_protector" = Some (PStr (u "yes")).
Proof.
  destruct (whitelist_configs_only_deletes sample_report sample_kernel ∅)
    as (d' & kernel' & g' & Hrun & Hk & _ & Hkeep & _);
    [vm_compute; reflexivity..|].
  exists d', kernel'. split; [done|]. split; [done|].
  rewrite Hkeep; [vm_compute; reflexivity|].
  apply list_elem_of_In. vm_compute. tauto.
Defined.

(** ** Claims about the orchestrator *)

Lemma mime_plain_iff fo :
  object_mime_is_plaintext fo
  = bool_decide (mime_of fo = Some (u "text/plain")).
Proof.
  unfold object_mime_is_plaintext, mime_of.
  destruct (processed_analysis fo !! u "file_type") as [file_type|]; [|done].
  simpl. destruct (file_type !! u "mime") as [mime|]; [|done].
  simpl. destruct mime; try done. simpl.
  apply bool_decide_ext. split; [by intros ->|by intros [= ->]].
Qed.

Lemma any_linux_kernel_texts lower (l : list pyval) :
  forallb (λ v, bool_decide (is_Some (text_of v))) l = true →
  any_linux_kernel lower l
  = Ok (existsb (names_linux_kernel lower) (omap text_of l)).
Proof.
  induction l as [|c l IH]; [done|]. simpl.
  intros [Hc Hl]%andb_true_iff. specialize (IH Hl).
  destruct c; try done. simpl. unfold names_linux_kernel at 1.
  destruct (contains (u "linux kernel") (lower s)); [done|]. by rewrite IH.
Qed.

Lemma kernel_image_hints lower fo :
  hints_well_typed fo = true →
  object_is_kernel_image lower fo
  = Ok (existsb (names_linux_kernel lower) (hints_of fo)).
Proof.
  unfold hints_well_typed, object_is_kernel_image, hints_of.
  destruct (processed_analysis fo !! u "software_components")
    as [components|]; [|done].
  destruct (components !! u "summary") as [summary|]; [|done].
  destruct summary; try done. simpl. apply any_linux_kernel_texts.
Qed.

Lemma verdict_with_record fo record :
  verdict (with_record fo record)
  = match record !! u "is_kernel_config", record !! u "kernel_config" with
    | Some (PBool true), Some (PStr text) => Found text
    | _, _ => NotAConfig
    end.
Proof. unfold verdict, with_record. simpl. by rewrite lookup_insert_eq. Qed.

Ltac record_lookup :=
  unfold summary_of, found_record;
  repeat first [ rewrite lookup_insert_eq
               | rewrite lookup_insert_ne by key_ne
               | rewrite lookup_empty ].

Lemma summary_of_flag text :
  summary_of text !! u "is_kernel_config" = Some (PBool true).
Proof. by record_lookup. Qed.

Lemma summary_of_text text :
  summary_of text !! u "kernel_config" = Some (PStr text).
Proof. by record_lookup. Qed.


Section OrchestratorClaims.
Variable unicode_isalnum unicode_isdecimal : Z → bool.
Variable str_lower : str → str.
Variable decompress : bytes → list bytes.
Variable checksec : bytes → option pyval.

Let classify := probably_kernel_config unicode_isalnum unicode_isdecimal.
Let cascade := try_object_extract_ikconfig decompress.
Let detected := detection unicode_isalnum unicode_isdecimal str_lower
                  decompress.
Let run := process_object unicode_isalnum unicode_isdecimal str_lower
             decompress checksec.

(** The bytes handed on by the detection were accepted by the
    classifier, and are the object's bytes or the cascade's result. *)
Lemma detected_classified fo raw :
  detected fo = Ok (Some raw) →
  classify raw = true ∧ (raw = binary fo ∨ raw = cascade (binary fo)).
Proof.
  unfold detected, detection. fold classify cascade.
  destruct (object_mime_is_plaintext fo && classify (binary fo)) eqn:Hplain.
  { intros [= <-]. apply andb_true_iff in Hplain as [_ ?]. auto. }
  destruct (if bool_decide (file_name fo = u "configs.ko") then Ok true
            else object_is_kernel_image str_lower fo) as [[|]|e]; try done.
  destruct (classify (cascade (binary fo))) eqn:Hc; [|done].
  intros [= <-]. auto.
Qed.

(** The verdict left on the object, by the outcome of the detection. *)
Lemma verdict_run fo :
  verdict (run fo).1
  = match detected fo with
    | Ok (Some raw) => Found (as_text raw)
    | _ => NotAConfig
    end.
Proof.
  unfold run. rewrite process_object_run. fold detected.
  destruct (detected fo) as [[raw|]|e] eqn:Hd.
  - destruct (detected_classified _ _ Hd) as [Hc _].
    destruct (classify_decodes _ _ _ Hc) as [text Hdec].
    unfold as_text. rewrite Hdec. simpl.
    destruct (check_kernel_config checksec text); simpl;
      rewrite verdict_with_record.
    + rewrite !lookup_insert_ne by key_ne.
      by rewrite summary_of_flag, summary_of_text.
    + by rewrite summary_of_flag, summary_of_text.
  - simpl. rewrite verdict_with_record.
    by rewrite !lookup_insert_ne by key_ne.
  - simpl. by rewrite verdict_with_record.
Qed.

(** C1: the verdict that [process_object] leaves on a file object whose
    hints are well typed is the one the decision policy gives for the
    raw object: plain-text MIME type and accepted bytes give [Found] with
    the bytes as text; otherwise the name [configs.ko] or a hint that
    names a Linux kernel sends the bytes through the cascade, and the
    verdict is [Found] with the cascade's result iff the classifier
    accepts it; in every other case the verdict is [NotAConfig]. *)
Theorem process_object_decision_policy (fo : FileObject) :
  hints_well_typed fo = true →
  verdict (run fo).1
  = decision_policy classify cascade str_lower (raw_object fo).
Proof.
  intros Hhints. rewrite verdict_run.
  unfold detected, detection, decision_policy, raw_object. simpl.
  fold classify cascade.
  rewrite <- mime_plain_iff, (kernel_image_hints _ _ Hhints).
  destruct (object_mime_is_plaintext fo && classify (binary fo)); [done|].
  case_bool_decide; simpl.
  - by destruct (classify (cascade (binary fo))).
  - destruct (existsb _ _); [|done].
    by destruct (classify (cascade (binary fo))).
Qed.

(** C6: whenever the record that [process_object] leaves holds
    [is_kernel_config] or [kernel_config], it holds both, the flag is
    [True], and the text is the decoding of bytes that the classifier
    accepted: the object's bytes or the cascade's result. *)
Theorem found_only_if_classified (fo : FileObject)
    (record : gmap str pyval) :
  processed_analysis (run fo).1 !! NAME = Some record →
  is_Some (record !! u "is_kernel_config")
  ∨ is_Some (record !! u "kernel_config") →
  ∃ raw text,
    classify raw = true
    ∧ Utf8.decode raw = Some text
    ∧ (raw = binary fo ∨ raw = cascade (binary fo))
    ∧ record !! u "is_kernel_config" = Some (PBool true)
    ∧ record !! u "kernel_config" = Some (PStr text)
    ∧ verdict (run fo).1 = Found text.
Proof.
  rewrite verdict_run. unfold run. rewrite process_object_run.
  fold detected.
  destruct (detected fo) as [[raw|]|e] eqn:Hd.
  - destruct (detected_classified _ _ Hd) as [Hc Hraw].
    destruct (classify_decodes _ _ _ Hc) as [text Hdec].
    unfold as_text. rewrite Hdec.
    intros Hrec _. exists raw, text. repeat (split; [done|]).
    destruct (check_kernel_config checksec text); simpl in Hrec;
      rewrite lookup_insert_eq in Hrec; injection Hrec as <-.
    + rewrite !lookup_insert_ne by key_ne.
      by rewrite summary_of_flag, summary_of_text.
    + by rewrite summary_of_flag, summary_of_text.
  - simpl. rewrite lookup_insert_eq. intros [= <-].
    rewrite !lookup_insert_ne by key_ne. rewrite lookup_empty.
    by intros [[? ?]|[? ?]].
  - simpl. rewrite lookup_insert_eq. intros [= <-].
    rewrite lookup_empty. by intros [[? ?]|[? ?]].
Qed.


End OrchestratorClaims.

(** ** Claims about the audit step *)






(** ** Witnesses for the orchestrator *)

Lemma process_object_decision_policy_witness :
  hints_well_typed sample_text_file = true
  ∧ verdict (process_object ascii_only ascii_only ascii_lower no_codec
               silent_auditor sample_text_file).1
    = decision_policy (probably_kernel_config ascii_only ascii_only)
        (try_object_extract_ikconfig no_codec) ascii_lower
        (raw_object sample_text_file).
Proof.
  assert (H : hints_well_typed sample_text_file = true)
    by (vm_compute; reflexivity).
  split; [exact H|].
  exact (process_object_decision_policy ascii_only ascii_only ascii_lower
           no_codec silent_auditor sample_text_file H).
Defined.

Lemma found_only_if_classified_witness :
  ∃ raw text,
    probably_kernel_config ascii_only ascii_only raw = true
    ∧ Utf8.decode raw = Some text
    ∧ verdict (process_object ascii_only ascii_only ascii_lower no_codec
                 silent_auditor sample_text_file).1 = Found text.
Proof.
  destruct (found_only_if_classified ascii_only ascii_only ascii_lower
              no_codec silent_auditor sample_text_file
              (<[u "checksec" := empty_report]>
                 (summary_of (as_text sample_config))))
    as (raw & text & Hc & Hdec & _ & _ & _ & Hv).
  - vm_compute. reflexivity.
  - left. vm_compute. eexists. reflexivity.
  - exists raw, text. split; [exact Hc|]. split; [exact Hdec|exact Hv].
Defined.


(** ** The testable properties of the specification, on the samples *)

Example classify_sample :
  probably_kernel_config ascii_only ascii_only sample_config = true.
Proof. vm_compute. reflexivity. Qed.

Example classify_directives_only :
  probably_kernel_config ascii_only ascii_only directives_only = false.
Proof. vm_compute. reflexivity. Qed.

Example cascade_sample_image :
  try_object_extract_ikconfig sample_codec sample_image = sample_config.
Proof. vm_compute. reflexivity. Qed.

Example filter_sample_report :
  whitelist_configs (PDict sample_report)
  = (PDict {[ u "kernel" := PDict {[ u "gcc_stack_protector"
                                       := PStr (u "yes") ]};
              u "grsecurity" := PDict ∅ ]}, None).
Proof. vm_compute. reflexivity. Qed.

Example verdict_text_file :
  verdict (process_object ascii_only ascii_only ascii_lower no_codec
             sample_auditor sample_text_file).1
  = Found (as_text sample_config).
Proof. vm_compute. reflexivity. Qed.

Example verdict_binary_file :
  verdict (process_object ascii_only ascii_only ascii_lower no_codec
             sample_auditor sample_binary_file).1
  = NotAConfig.
Proof. vm_compute. reflexivity. Qed.

Example kernel_image_found :
  verdict (process_object ascii_only ascii_only ascii_lower sample_codec
             sample_auditor
             (mkFileObject sample_image (u "vmlinuz")
                {[ u "software_components"
                   := {[ u "summary"
                         := PList [PStr (u "Linux Kernel 5.4.0")] ]} ]})).1
  = Found (as_text sample_config).
Proof. vm_compute. reflexivity. Qed.

Example audit_malformed_output :
  check_kernel_config silent_auditor (as_text sample_config)
  = Ok empty_report.
Proof. vm_compute. reflexivity. Qed.

(** * Further properties *)

(** ** UTF-8 round trips *)

Lemma byte_of_val (x : byte) : byte_of_Z (byte_val x) = x.
Proof.
  unfold byte_of_Z, byte_val. rewrite N2Z.id. by rewrite Byte.of_to_N.
Qed.

Lemma byte_val_of (z : Z) : 0 ≤ z ≤ 255 → byte_val (byte_of_Z z) = z.
Proof.
  intros Hz. unfold byte_of_Z, byte_val.
  destruct (Byte.of_N (Z.to_N z)) as [x|] eqn:Hx.
  - apply Byte.to_of_N in Hx. rewrite Hx. lia.
  - apply Byte.of_N_None_iff in Hx. lia.
Qed.

Lemma encode_cp_1 x0 : 0 ≤ x0 < 128 → Utf8.encode_cp x0 = [byte_of_Z x0].
Proof.
  intros H0. unfold Utf8.encode_cp.
  by destruct (Z.ltb_spec x0 128); [|lia].
Qed.

Lemma encode_cp_2 x0 x1 :
  194 ≤ x0 ≤ 223 → 128 ≤ x1 ≤ 191 →
  Utf8.encode_cp ((x0 - 192) * 64 + (x1 - 128))
  = [byte_of_Z x0; byte_of_Z x1].
Proof.
  intros H0 H1. unfold Utf8.encode_cp.
  set (c := (x0 - 192) * 64 + (x1 - 128)).
  destruct (Z.ltb_spec c 128); [lia|].
  destruct (Z.ltb_spec c 2048); [|lia].
  replace (192 + c / 64) with x0 by (unfold c; Z.div_mod_to_equations; lia).
  replace (128 + c mod 64) with x1 by (unfold c; Z.div_mod_to_equations; lia).
  done.
Qed.

Lemma encode_cp_3 x0 x1 x2 :
  224 ≤ x0 ≤ 239 → 128 ≤ x1 ≤ 191 → 128 ≤ x2 ≤ 191 →
  2048 ≤ (x0 - 224) * 4096 + (x1 - 128) * 64 + (x2 - 128) →
  Utf8.encode_cp ((x0 - 224) * 4096 + (x1 - 128) * 64 + (x2 - 128))
  = [byte_of_Z x0; byte_of_Z x1; byte_of_Z x2].
Proof.
  intros H0 H1 H2 Hc. unfold Utf8.encode_cp.
  set (c := (x0 - 224) * 4096 + (x1 - 128) * 64 + (x2 - 128)) in *.
  destruct (Z.ltb_spec c 128); [lia|].
  destruct (Z.ltb_spec c 2048); [lia|].
  destruct (Z.ltb_spec c 65536); [|lia].
  replace (224 + c / 4096) with x0
    by (unfold c; Z.div_mod_to_equations; lia).
  replace (128 + (c / 64) mod 64) with x1
    by (unfold c; Z.div_mod_to_equations; lia).
  replace (128 + c mod 64) with x2
    by (unfold c; Z.div_mod_to_equations; lia).
  done.
Qed.

Lemma encode_cp_4 x0 x1 x2 x3 :
  240 ≤ x0 ≤ 244 → 128 ≤ x1 ≤ 191 → 128 ≤ x2 ≤ 191 → 128 ≤ x3 ≤ 191 →
  65536 ≤ (x0 - 240) * 262144 + (x1 - 128) * 4096 + (x2 - 128) * 64
          + (x3 - 128) →
  Utf8.encode_cp ((x0 - 240) * 262144 + (x1 - 128) * 4096
                  + (x2 - 128) * 64 + (x3 - 128))
  = [byte_of_Z x0; byte_of_Z x1; byte_of_Z x2; byte_of_Z x3].
Proof.
  intros H0 H1 H2 H3 Hc. unfold Utf8.encode_cp.
  set (c := (x0 - 240) * 262144 + (x1 - 128) * 4096 + (x2 - 128) * 64
            + (x3 - 128)) in *.
  destruct (Z.ltb_spec c 128); [lia|].
  destruct (Z.ltb_spec c 2048); [lia|].
  destruct (Z.ltb_spec c 65536); [lia|].
  replace (240 + c / 262144) with x0
    by (unfold c; Z.div_mod_to_equations; lia).
  replace (128 + (c / 4096) mod 64) with x1
    by (unfold c; Z.div_mod_to_equations; lia).
  replace (128 + (c / 64) mod 64) with x2
    by (unfold c; Z.div_mod_to_equations; lia).
  replace (128 + c mod 64) with x3
    by (unfold c; Z.div_mod_to_equations; lia).
  done.
Qed.

Lemma encode_cons c text data :
  Utf8.scalar c = true → Utf8.encode text = Some data →
  Utf8.encode (c :: text) = Some (Utf8.encode_cp c ++ data).
Proof. intros Hc Ht. simpl. by rewrite Hc, Ht. Qed.

Lemma encode_decode_bounded (n : nat) (raw : bytes) (text : str) :
  (length raw ≤ n)%nat → Utf8.decode raw = Some text →
  Utf8.encode text = Some raw.
Proof.
  revert raw text. induction n as [|n IH]; intros raw text Hlen Hdec.
  { destruct raw; simpl in *; [|lia]. by injection Hdec as <-. }
  destruct raw as [|b0 t0]; simpl in Hdec.
  { by injection Hdec as <-. }
  simpl in Hlen. pose proof (byte_val_range b0) as R0.
  destruct (byte_val b0 <? 128) eqn:E0.
  { apply push_Some in Hdec as (rest & Hrest & ->). bool_hyps.
    rewrite (encode_cons _ _ t0); [|apply scalar_intro; lia|].
    - by rewrite encode_cp_1, byte_of_val by lia.
    - apply IH; [lia|done]. }
  destruct ((194 <=? byte_val b0) && (byte_val b0 <=? 223)) eqn:E1.
  { destruct t0 as [|b1 t1]; [done|]. simpl in Hlen.
    destruct (Utf8.is_cont (byte_val b1)) eqn:C1; [|done].
    apply push_Some in Hdec as (rest & Hrest & ->).
    unfold Utf8.is_cont in C1. bool_hyps.
    rewrite (encode_cons _ _ t1); [|apply scalar_intro; lia|].
    - by rewrite encode_cp_2, !byte_of_val by lia.
    - apply IH; [lia|done]. }
  destruct ((224 <=? byte_val b0) && (byte_val b0 <=? 239)) eqn:E2.
  { destruct t0 as [|b1 [|b2 t2]]; [done..|]. simpl in Hlen.
    match type of Hdec with (if ?c then _ else _) = _ =>
      destruct c eqn:C; [|done] end.
    apply push_Some in Hdec as (rest & Hrest & ->).
    unfold Utf8.is_cont, Utf8.is_surrogate in C. clear E0 E1. bool_hyps;
    (rewrite (encode_cons _ _ t2); [|apply scalar_intro; lia|];
     [by rewrite encode_cp_3, !byte_of_val by lia|apply IH; [lia|done]]). }
  destruct ((240 <=? byte_val b0) && (byte_val b0 <=? 244)) eqn:E3; [|done].
  destruct t0 as [|b1 [|b2 [|b3 t3]]]; [done..|]. simpl in Hlen.
  match type of Hdec with (if ?c then _ else _) = _ =>
    destruct c eqn:C; [|done] end.
  apply push_Some in Hdec as (rest & Hrest & ->).
  unfold Utf8.is_cont in C. clear E0 E1 E2. bool_hyps.
  rewrite (encode_cons _ _ t3); [|apply scalar_intro; lia|].
  - by rewrite encode_cp_4, !byte_of_val by lia.
  - apply IH; [lia|done].
Qed.

(** X1: encoding a decoded text gives back the bytes it was decoded
    from: the text that [add_kernel_config_to_analysis] stores, encoded as
    [check_kernel_config] does for the temporary file, is the accepted
    buffer byte for byte. *)
Theorem encode_decoded_bytes (raw : bytes) (text : str) :
  Utf8.decode raw = Some text → Utf8.encode text = Some raw.
Proof. apply (encode_decode_bounded (length raw)). lia. Qed.

Lemma encode_decoded_bytes_witness :
  Utf8.encode (as_text sample_config) = Some sample_config.
Proof.
  apply (encode_decoded_bytes sample_config (as_text sample_config)).
  vm_compute. reflexivity.
Defined.

Lemma in_range_true a z x : a ≤ x ≤ z → (a <=? x) && (x <=? z) = true.
Proof. intros. apply andb_true_iff. split; apply Z.leb_le; lia. Qed.

Lemma in_range_false a z x : x < a ∨ z < x → (a <=? x) && (x <=? z) = false.
Proof. intros. apply andb_false_iff. rewrite !Z.leb_gt. lia. Qed.

Lemma ltb_false a x : a ≤ x → (x <? a) = false.
Proof. intros. by apply Z.ltb_ge. Qed.

Lemma scalar_elim c :
  Utf8.scalar c = true → 0 ≤ c ≤ 1114111 ∧ (c < 55296 ∨ 57343 < c).
Proof.
  unfold Utf8.scalar, Utf8.is_surrogate.
  rewrite !andb_true_iff, negb_true_iff, andb_false_iff.
  rewrite !Z.leb_le, !Z.leb_gt. lia.
Qed.

Lemma decode_1 x0 rest :
  0 ≤ x0 < 128 →
  Utf8.decode (byte_of_Z x0 :: rest) = Utf8.push x0 (Utf8.decode rest).
Proof.
  intros H0. cbn [Utf8.decode]. rewrite byte_val_of by lia.
  by destruct (Z.ltb_spec x0 128); [|lia].
Qed.

Lemma decode_2 x0 x1 rest :
  194 ≤ x0 ≤ 223 → 128 ≤ x1 ≤ 191 →
  Utf8.decode (byte_of_Z x0 :: byte_of_Z x1 :: rest)
  = Utf8.push ((x0 - 192) * 64 + (x1 - 128)) (Utf8.decode rest).
Proof.
  intros H0 H1. cbn [Utf8.decode]. rewrite !byte_val_of by lia.
  rewrite ltb_false by lia. rewrite (in_range_true 194 223) by lia.
  unfold Utf8.is_cont. by rewrite (in_range_true 128 191) by lia.
Qed.

Lemma decode_3 x0 x1 x2 rest :
  224 ≤ x0 ≤ 239 → 128 ≤ x1 ≤ 191 → 128 ≤ x2 ≤ 191 →
  Utf8.scalar ((x0 - 224) * 4096 + (x1 - 128) * 64 + (x2 - 128)) = true →
  2048 ≤ (x0 - 224) * 4096 + (x1 - 128) * 64 + (x2 - 128) →
  Utf8.decode (byte_of_Z x0 :: byte_of_Z x1 :: byte_of_Z x2 :: rest)
  = Utf8.push ((x0 - 224) * 4096 + (x1 - 128) * 64 + (x2 - 128))
      (Utf8.decode rest).
Proof.
  intros H0 H1 H2 Hs Hc. cbn [Utf8.decode]. rewrite !byte_val_of by lia.
  rewrite ltb_false by lia. rewrite (in_range_false 194 223) by lia.
  rewrite (in_range_true 224 239) by lia.
  unfold Utf8.is_cont. rewrite !(in_range_true 128 191) by lia.
  cbn [andb]. apply scalar_elim in Hs as [_ Hs].
  unfold Utf8.is_surrogate. rewrite (in_range_false 55296 57343) by lia.
  by destruct (Z.leb_spec 2048
                 ((x0 - 224) * 4096 + (x1 - 128) * 64 + (x2 - 128)));
    [|lia].
Qed.

Lemma decode_4 x0 x1 x2 x3 rest :
  240 ≤ x0 ≤ 244 → 128 ≤ x1 ≤ 191 → 128 ≤ x2 ≤ 191 → 128 ≤ x3 ≤ 191 →
  65536 ≤ (x0 - 240) * 262144 + (x1 - 128) * 4096 + (x2 - 128) * 64
          + (x3 - 128) ≤ 1114111 →
  Utf8.decode (byte_of_Z x0 :: byte_of_Z x1 :: byte_of_Z x2
               :: byte_of_Z x3 :: rest)
  = Utf8.push ((x0 - 240) * 262144 + (x1 - 128) * 4096 + (x2 - 128) * 64
               + (x3 - 128)) (Utf8.decode rest).
Proof.
  intros H0 H1 H2 H3 Hc. cbn [Utf8.decode]. rewrite !byte_val_of by lia.
  rewrite ltb_false by lia. rewrite (in_range_false 194 223) by lia.
  rewrite (in_range_false 224 239) by lia.
  rewrite (in_range_true 240 244) by lia.
  unfold Utf8.is_cont. rewrite !(in_range_true 128 191) by lia.
  cbn [andb]. by rewrite (in_range_true 65536 1114111) by lia.
Qed.

Lemma decode_encode_cp c rest :
  Utf8.scalar c = true →
  Utf8.decode (Utf8.encode_cp c ++ rest) = Utf8.push c (Utf8.decode rest).
Proof.
  intros Hs. pose proof (scalar_elim c Hs) as [Hr Hsur].
  unfold Utf8.encode_cp.
  destruct (Z.ltb_spec c 128).
  { cbn [app]. apply decode_1. lia. }
  destruct (Z.ltb_spec c 2048).
  { cbn [app]. rewrite decode_2 by (Z.div_mod_to_equations; lia).
    f_equal. Z.div_mod_to_equations; lia. }
  destruct (Z.ltb_spec c 65536).
  { cbn [app].
    assert ((224 + c / 4096 - 224) * 4096
            + (128 + (c / 64) mod 64 - 128) * 64 + (128 + c mod 64 - 128)
            = c) as Hc by (Z.div_mod_to_equations; lia).
    rewrite decode_3; rewrite ?Hc; try done;
      Z.div_mod_to_equations; lia. }
  cbn [app].
  assert ((240 + c / 262144 - 240) * 262144
          + (128 + (c / 4096) mod 64 - 128) * 4096
          + (128 + (c / 64) mod 64 - 128) * 64 + (128 + c mod 64 - 128)
          = c) as Hc by (Z.div_mod_to_equations; lia).
  rewrite decode_4; rewrite ?Hc; try done; Z.div_mod_to_equations; lia.
Qed.

(** X2: decoding an encoded text gives back the text, for every text of
    Unicode scalar values (the texts [encode] accepts): nothing is lost
    between the text stored under [kernel_config] and the bytes written
    for the auditor. *)
Theorem decode_encoded_text (text : str) (data : bytes) :
  Utf8.encode text = Some data → Utf8.decode data = Some text.
Proof.
  revert data. induction text as [|c text IH]; intros data; simpl.
  { by intros [= <-]. }
  destruct (Utf8.scalar c) eqn:Hs; [|done].
  destruct (Utf8.encode text) as [rest|]; [|done].
  intros [= <-]. rewrite decode_encode_cp by done.
  by rewrite (IH rest).
Qed.

Lemma decode_encoded_text_witness :
  Utf8.decode [xe2; x82; xac; x41] = Some [8364; 65].
Proof.
  apply (decode_encoded_text [8364; 65] [xe2; x82; xac; x41]).
  vm_compute. reflexivity.
Defined.

(** ** More on the classifier *)

Lemma decode_encoded_app text data more :
  Utf8.encode text = Some data →
  Utf8.decode (data ++ more)
  = match Utf8.decode more with
    | Some rest => Some (text ++ rest)
    | None => None
    end.
Proof.
  revert data. induction text as [|c text IH]; intros data; simpl.
  { intros [= <-]. simpl. by destruct (Utf8.decode more). }
  destruct (Utf8.scalar c) eqn:Hs; [|done].
  destruct (Utf8.encode text) as [rest|]; [|done].
  intros [= <-]. rewrite <- app_assoc, decode_encode_cp by done.
  rewrite (IH rest) by done. by destruct (Utf8.decode more).
Qed.

(** Decoding a concatenation of buffers that decode gives the
    concatenation of the texts. *)
Lemma decode_app raw1 raw2 text1 text2 :
  Utf8.decode raw1 = Some text1 → Utf8.decode raw2 = Some text2 →
  Utf8.decode (raw1 ++ raw2) = Some (text1 ++ text2).
Proof.
  intros H1%encode_decoded_bytes H2.
  by rewrite (decode_encoded_app _ _ _ H1), H2.
Qed.

Lemma banner_line_last l : banner_line l → last l = Some 110.
Proof.
  intros [anything ->].
  change (u " Kernel Configuration") with (u " Kernel Configuratio" ++ [110]).
  by rewrite !app_assoc, last_snoc.
Qed.

Section ClassifierMore.
Variable unicode_isalnum unicode_isdecimal : Z → bool.

Let classify := probably_kernel_config unicode_isalnum unicode_isdecimal.

(** X3: acceptance depends only on which lines occur in the text: a text
    that has every line of an accepted text is accepted, so two texts with
    the same lines, in whatever order and number, are classified alike. *)
Theorem classifier_depends_on_lines (raw1 raw2 : bytes) (text1 text2 : str) :
  Utf8.decode raw1 = Some text1 → Utf8.decode raw2 = Some text2 →
  ((∀ l, l ∈ lines text1 → l ∈ lines text2) →
   classify raw1 = true → classify raw2 = true)
  ∧ ((∀ l, l ∈ lines text1 ↔ l ∈ lines text2) →
     classify raw1 = classify raw2).
Proof.
  intros Hd1 Hd2.
  assert (∀ r1 r2 t1 t2,
            Utf8.decode r1 = Some t1 → Utf8.decode r2 = Some t2 →
            (∀ l, l ∈ lines t1 → l ∈ lines t2) →
            classify r1 = true → classify r2 = true) as Hmono.
  { intros r1 r2 t1 t2 H1 H2 Hsub.
    unfold classify. rewrite !classify_iff. rewrite H1.
    intros (t & [= <-] & (lb & Hlb & Hb) & (ld & Hld & Hd)).
    exists t2. split; [done|]. split; [exists lb|exists ld]; auto. }
  split; [by apply Hmono|].
  intros Hsame.
  destruct (classify raw1) eqn:H1.
  - symmetry. apply (Hmono raw1 raw2 text1 text2); try done.
    intros l. apply Hsame.
  - destruct (classify raw2) eqn:H2; [|done].
    rewrite <- H1. apply (Hmono raw2 raw1 text2 text1); try done.
    intros l. apply Hsame.
Qed.

(** X4: an accepted configuration stays accepted when it is put on lines
    of its own between any other text: the banner need not come first and
    the configuration need not be the whole file. *)
Theorem classifier_accepts_embedded (raw before after : bytes) :
  classify raw = true →
  is_Some (Utf8.decode before) → is_Some (Utf8.decode after) →
  classify (before ++ b LF ++ raw ++ b LF ++ after) = true.
Proof.
  unfold classify. rewrite !classify_iff.
  intros (text & Hdec & (lb & Hlb & Hb) & (ld & Hld & Hd))
         [tb Hbefore] [ta Hafter].
  assert (Utf8.decode (b LF) = Some [newline]) as Hlf
    by (vm_compute; reflexivity).
  exists (tb ++ [newline] ++ text ++ [newline] ++ ta). split.
  { repeat (apply decode_app; try done). }
  change (tb ++ [newline] ++ text ++ [newline] ++ ta)
    with (tb ++ newline :: text ++ newline :: ta).
  rewrite !lines_app_newline.
  split; [exists lb|exists ld]; (split; [|done]);
    apply elem_of_app; right; apply elem_of_app; by left.
Qed.

(** X5: the banner has to end its line: a text in which no line ends
    with the last letter of the banner is rejected, whatever else it
    holds. This is the case of a configuration with CRLF line endings or
    with blanks after the banner. *)
Theorem classifier_rejects_unterminated_banner (raw : bytes) (text : str) :
  Utf8.decode raw = Some text →
  (∀ l, l ∈ lines text → last l ≠ Some 110) →
  classify raw = false.
Proof.
  intros Hdec Hlast. apply classify_false.
  intros text'. rewrite Hdec. intros [= <-] (l & Hin & Hb) _.
  apply (Hlast l Hin). by apply banner_line_last.
Qed.

End ClassifierMore.

(** ** More on the cascade *)

Section CascadeMore.
Variable decompress : bytes → list bytes.
Let cascade := try_object_extract_ikconfig decompress.

Lemma cascade_at_signature raw pre post :
  first_occurrence MAGIC_WORD raw pre post →
  cascade raw = default [] (head (decompress (MAGIC_WORD ++ post))).
Proof.
  intros Hfirst. unfold cascade. rewrite cascade_outer.
  assert (occurs MAGIC_WORD raw) as Hocc.
  { destruct Hfirst as [Heq _]. by exists pre, post. }
  assert ((find raw MAGIC_WORD <? 0) = false) as Hf.
  { destruct (find raw MAGIC_WORD <? 0) eqn:Hf; [|done].
    by apply find_absent in Hf. }
  rewrite Hf, Hf.
  by rewrite (slice_at_first_occurrence _ _ _ _ Hfirst).
Qed.

(** X6: what comes before the signature plays no part: a buffer that
    holds the signature gives the same result as the buffer cut at the
    first occurrence of the signature, namely the first candidate of
    decompressing from there (empty bytes when there is none); the buffer
    as a whole is not decompressed. *)
Theorem cascade_ignores_prefix (raw pre post : bytes) :
  first_occurrence MAGIC_WORD raw pre post →
  cascade raw = cascade (MAGIC_WORD ++ post)
  ∧ cascade raw = default [] (head (decompress (MAGIC_WORD ++ post))).
Proof.
  intros Hfirst. split; [|by apply (cascade_at_signature raw pre post)].
  rewrite (cascade_at_signature raw pre post) by done.
  symmetry. apply (cascade_at_signature _ [] post).
  split; [done|]. intros; simpl; lia.
Qed.

(** X7: the cascade never makes up bytes: a non-empty result is the
    first candidate that [decompress] gave for a buffer starting with the
    signature. *)
Theorem cascade_result_is_candidate (raw : bytes) :
  cascade raw ≠ [] →
  ∃ post rest, decompress (MAGIC_WORD ++ post) = cascade raw :: rest.
Proof.
  intros Hne. unfold cascade in *.
  destruct (cascade_complete decompress raw)
    as [ | | |container pre post first rest _ _ Hdec]; try done.
  by exists post, rest.
Qed.

End CascadeMore.

(** ** More on the hardening result filter *)

(** The loop that deletes from the section while walking a copy of it is
    the filter that keeps the allow-listed keys. *)
Lemma filter_dict_filter (allow_list : list str) (section : gmap str pyval) :
  filter_dict allow_list section
  = filter (λ entry, entry.1 ∈ allow_list) section.
Proof.
  apply map_eq. intros k. apply option_eq. intros v.
  rewrite map_lookup_filter_Some, filter_dict_lookup. simpl.
  case_bool_decide; [tauto|]. split; [done|tauto].
Qed.

Lemma filter_dict_size (allow_list : list str) (section : gmap str pyval) :
  NoDup allow_list →
  (size (filter_dict allow_list section) ≤ length allow_list)%nat
  ∧ (size (filter_dict allow_list section) ≤ size section)%nat.
Proof.
  intros Hnodup. split.
  - rewrite <- (size_list_to_set (C:=gset str) allow_list) by done.
    rewrite <- (size_dom (D:=gset str)). apply subseteq_size.
    intros k [v Hv]%elem_of_dom. rewrite filter_dict_lookup in Hv.
    apply elem_of_list_to_set. by case_bool_decide.
  - apply map_subseteq_size. rewrite filter_dict_filter.
    apply map_filter_subseteq.
Qed.

Lemma whitelists_nodup :
  NoDup KERNEL_WHITELIST ∧ NoDup GRSECURITY_WHITELIST
  ∧ length KERNEL_WHITELIST = 27%nat ∧ length GRSECURITY_WHITELIST = 27%nat.
Proof.
  split; [|split; [|done]]; apply (bool_decide_unpack _); by vm_compute.
Qed.

(** X8: the filtered report is small: on a report with both sections,
    each section of the result has at most 27 flags, and no more than it
    had. *)
Theorem whitelist_configs_bounds_sections
    (d kernel grsecurity : gmap str pyval) :
  d !! u "kernel" = Some (PDict kernel) →
  d !! u "grsecurity" = Some (PDict grsecurity) →
  ∃ d' kernel' grsecurity',
    whitelist_configs (PDict d) = (PDict d', None)
    ∧ d' !! u "kernel" = Some (PDict kernel')
    ∧ d' !! u "grsecurity" = Some (PDict grsecurity')
    ∧ (size kernel' ≤ 27)%nat ∧ (size kernel' ≤ size kernel)%nat
    ∧ (size grsecurity' ≤ 27)%nat
    ∧ (size grsecurity' ≤ size grsecurity)%nat.
Proof.
  intros Hk Hg. destruct whitelists_nodup as (Hnk & Hng & Hlk & Hlg).
  eexists _, _, _.
  split; [by apply whitelist_configs_sections|].
  split; [|split; [apply lookup_insert_eq|]].
  { rewrite lookup_insert_ne by (symmetry; apply section_names_differ).
    apply lookup_insert_eq. }
  destruct (filter_dict_size KERNEL_WHITELIST kernel Hnk) as [? ?].
  destruct (filter_dict_size GRSECURITY_WHITELIST grsecurity Hng) as [? ?].
  rewrite Hlk in *. rewrite Hlg in *. done.
Qed.

Lemma filter_dict_insert_other allow_list section k v :
  k ∉ allow_list →
  filter_dict allow_list (<[k := v]> section) = filter_dict allow_list section.
Proof.
  intros Hk. apply map_eq. intros i. rewrite !filter_dict_lookup.
  case_bool_decide as Hi; [|done].
  rewrite lookup_insert_ne; [done|]. by intros ->.
Qed.

(** X9: flags outside the allow-list do not show: a report whose
    [kernel] section has one more flag that is not allow-listed is
    filtered to the same result. *)
Theorem whitelist_configs_ignores_other_flags
    (d kernel grsecurity : gmap str pyval) (flag : str) (value : pyval) :
  d !! u "kernel" = Some (PDict kernel) →
  d !! u "grsecurity" = Some (PDict grsecurity) →
  flag ∉ KERNEL_WHITELIST →
  whitelist_configs
    (PDict (<[u "kernel" := PDict (<[flag := value]> kernel)]> d))
  = whitelist_configs (PDict d).
Proof.
  intros Hk Hg Hflag.
  rewrite (whitelist_configs_sections d kernel grsecurity Hk Hg).
  rewrite (whitelist_configs_sections _ (<[flag := value]> kernel)
             grsecurity).
  - rewrite filter_dict_insert_other by done.
    by rewrite insert_insert_eq.
  - apply lookup_insert_eq.
  - by rewrite lookup_insert_ne by apply section_names_differ.
Qed.

Lemma list_delitem_raises l key e :
  list_delitem l key = Raise e → e = IndexError ∨ e = TypeError.
Proof.
  unfold list_delitem. destruct key; try (intros [= <-]; auto);
    match goal with |- (if ?c then _ else _) = _ → _ => destruct c end;
    intros [= <-]; auto.
Qed.

Lemma filter_list_raises allow_list keys cur e :
  (filter_list allow_list keys cur).2 = Some e →
  e = IndexError ∨ e = TypeError.
Proof.
  revert cur. induction keys as [|key keys IH]; intros cur; simpl; [done|].
  destruct (in_whitelist key allow_list); [apply IH|].
  destruct (list_delitem cur key) as [cur'|e'] eqn:Hdel; [apply IH|].
  simpl. intros [= <-]. by eapply list_delitem_raises.
Qed.

(** One loop raises [AttributeError], [IndexError] or [TypeError], and
    nothing else. *)
Lemma filter_section_raises allow_list section e :
  (filter_section allow_list section).2 = Some e →
  e = AttributeError ∨ e = IndexError ∨ e = TypeError.
Proof.
  destruct section as [| | | | |l|d]; simpl; try (intros [= <-]; auto).
  - destruct (filter_list allow_list l l) as [l' e'] eqn:Hl. simpl.
    intros ->. pose proof (filter_list_raises allow_list l l e) as H.
    rewrite Hl in H. destruct (H eq_refl); auto.
Qed.

(** X10: the [KeyError] that the audit step swallows always means a
    missing section: the filter raises it exactly when the report is an
    object without [kernel], or an object whose [kernel] section went
    through its loop and which has no [grsecurity]. *)
Theorem whitelist_configs_keyerror_iff (report : pyval) :
  (whitelist_configs report).2 = Some KeyError
  ↔ ∃ d, report = PDict d
         ∧ (d !! u "kernel" = None
            ∨ ∃ kernel,
                d !! u "kernel" = Some kernel
                ∧ (filter_section KERNEL_WHITELIST kernel).2 = None
                ∧ d !! u "grsecurity" = None).
Proof.
  destruct report as [| | | | | |d]; simpl;
    try by (split; [done|intros (d & [=] & _)]).
  destruct (d !! u "kernel") as [kernel|] eqn:Hk.
  2:{ simpl. split; [|done]. intros _. exists d. auto. }
  destruct (filter_section KERNEL_WHITELIST kernel) as [kernel' e] eqn:Hf.
  destruct e as [e|]; simpl.
  { split.
    - intros [= ->].
      pose proof (filter_section_raises KERNEL_WHITELIST kernel KeyError) as H.
      rewrite Hf in H. by destruct (H eq_refl) as [?|[?|?]].
    - intros (d' & [= <-] & [Hno|(k & Hk' & He & _)]); [congruence|].
      rewrite Hk in Hk'. injection Hk' as <-. rewrite Hf in He. done. }
  rewrite lookup_insert_ne by apply section_names_differ.
  destruct (d !! u "grsecurity") as [grsecurity|] eqn:Hg.
  - destruct (filter_section GRSECURITY_WHITELIST grsecurity)
      as [grsecurity' e] eqn:Hfg. simpl. split.
    + intros ->.
      pose proof (filter_section_raises GRSECURITY_WHITELIST grsecurity
                    KeyError) as H.
      rewrite Hfg in H. by destruct (H eq_refl) as [?|[?|?]].
    + intros (d' & [= <-] & [Hno|(k & _ & _ & Hno)]); congruence.
  - simpl. split; [|done]. intros _. exists d. split; [done|]. right.
    exists kernel. by rewrite Hf.
Qed.

Lemma filter_list_allowed allow_list (keys cur : list pyval) :
  Forall (λ key, in_whitelist key allow_list = true) keys →
  filter_list allow_list keys cur = (cur, None).
Proof.
  induction 1 as [|key keys Hkey _ IH]; simpl; [done|]. by rewrite Hkey.
Qed.

(** X11: the filter does not check that a section is a mapping: a
    section that is a list of allow-listed flag names goes through
    unchanged and without an error. *)
Theorem whitelist_configs_accepts_flag_lists
    (d : gmap str pyval) (kernel grsecurity : list pyval) :
  d !! u "kernel" = Some (PList kernel) →
  d !! u "grsecurity" = Some (PList grsecurity) →
  Forall (λ key, in_whitelist key KERNEL_WHITELIST = true) kernel →
  Forall (λ key, in_whitelist key GRSECURITY_WHITELIST = true) grsecurity →
  whitelist_configs (PDict d) = (PDict d, None).
Proof.
  intros Hk Hg Hks Hgs. unfold whitelist_configs. rewrite Hk. simpl.
  rewrite (filter_list_allowed _ _ _ Hks). simpl.
  rewrite lookup_insert_ne by apply section_names_differ. rewrite Hg.
  simpl. rewrite (filter_list_allowed _ _ _ Hgs).
  by rewrite !insert_id
    by (rewrite ?lookup_insert_ne by apply section_names_differ; done).
Qed.

(** ** More on the audit step *)

(** A report that went through the filter without an error is an object
    that has both sections. *)
Lemma whitelist_configs_done report filtered :
  whitelist_configs report = (filtered, None) →
  ∃ d, filtered = PDict d
       ∧ is_Some (d !! u "kernel") ∧ is_Some (d !! u "grsecurity").
Proof.
  destruct report as [| | | | | |d]; simpl; try done.
  destruct (d !! u "kernel") as [kernel|]; [|done].
  destruct (filter_section KERNEL_WHITELIST kernel) as [kernel' [e|]];
    [done|].
  rewrite lookup_insert_ne by apply section_names_differ.
  destruct (d !! u "grsecurity") as [grsecurity|]; [|done].
  destruct (filter_section GRSECURITY_WHITELIST grsecurity)
    as [grsecurity' e]. intros [= <- ->].
  eexists. split; [done|]. split.
  - rewrite lookup_insert_ne by (symmetry; apply section_names_differ).
    rewrite lookup_insert_eq. eauto.
  - rewrite lookup_insert_eq. eauto.
Qed.

Lemma whitelist_configs_raises report e :
  (whitelist_configs report).2 = Some e →
  e = KeyError ∨ e = AttributeError ∨ e = IndexError ∨ e = TypeError.
Proof.
  destruct report as [| | | | | |d]; simpl; try (intros [= <-]; auto).
  destruct (d !! u "kernel") as [kernel|]; [|intros [= <-]; auto].
  destruct (filter_section KERNEL_WHITELIST kernel) as [kernel' e'] eqn:Hk.
  destruct e' as [e'|]; simpl.
  { intros [= ->].
    pose proof (filter_section_raises KERNEL_WHITELIST kernel e) as H.
    rewrite Hk in H. destruct (H eq_refl) as [?|[?|?]]; auto. }
  rewrite lookup_insert_ne by apply section_names_differ.
  destruct (d !! u "grsecurity") as [grsecurity|]; [|intros [= <-]; auto].
  destruct (filter_section GRSECURITY_WHITELIST grsecurity)
    as [grsecurity' e'] eqn:Hg. simpl. intros ->.
  pose proof (filter_section_raises GRSECURITY_WHITELIST grsecurity e) as H.
  rewrite Hg in H. destruct (H eq_refl) as [?|[?|?]]; auto.
Qed.

Section AuditMore.
Variable checksec : bytes → option pyval.

(** X12: what the audit step returns is an object: the empty report, or
    a report that has both the [kernel] and the [grsecurity] section. *)
Theorem check_kernel_config_report_shape (kernel_config : str)
    (report : pyval) :
  check_kernel_config checksec kernel_config = Ok report →
  report = empty_report
  ∨ ∃ d, report = PDict d
         ∧ is_Some (d !! u "kernel") ∧ is_Some (d !! u "grsecurity").
Proof.
  unfold check_kernel_config.
  destruct (Utf8.encode kernel_config) as [data|]; [|done].
  destruct (checksec data) as [parsed|]; [|intros [= <-]; by left].
  destruct (whitelist_configs parsed) as [filtered [e|]] eqn:Hw.
  - destruct e; try done. intros [= <-]. by left.
  - intros [= <-]. right. by eapply whitelist_configs_done.
Qed.

(** X13: the empty report has one meaning: the audit step returns it
    exactly when the auditor's output is not JSON or the filter raised
    [KeyError] for a missing section. *)
Theorem check_kernel_config_empty_iff (kernel_config : str) :
  check_kernel_config checksec kernel_config = Ok empty_report
  ↔ ∃ data,
      Utf8.encode kernel_config = Some data
      ∧ (checksec data = None
         ∨ ∃ parsed, checksec data = Some parsed
                     ∧ (whitelist_configs parsed).2 = Some KeyError).
Proof.
  unfold check_kernel_config.
  destruct (Utf8.encode kernel_config) as [data|].
  2:{ split; [done|]. by intros (data & [=] & _). }
  destruct (checksec data) as [parsed|] eqn:Hc.
  2:{ split; [|done]. intros _. exists data. auto. }
  destruct (whitelist_configs parsed) as [filtered [e|]] eqn:Hw.
  - destruct e;
      try (split; [done|];
           intros (data' & [= <-] & [Hn|(p & Hp & He)]);
           [congruence|]; rewrite Hc in Hp; injection Hp as <-;
           rewrite Hw in He; done).
    split; [|done]. intros _. exists data. split; [done|]. right.
    exists parsed. by rewrite Hw.
  - split.
    + intros [= ->].
      destruct (whitelist_configs_done _ _ Hw) as (d & [= <-] & [v Hv] & _).
      by rewrite lookup_empty in Hv.
    + intros (data' & [= <-] & [Hn|(p & Hp & He)]); [congruence|].
      rewrite Hc in Hp. injection Hp as <-. rewrite Hw in He. done.
Qed.

(** X14: what leaves the audit step is [UnicodeEncodeError] (for a text
    that cannot be encoded), [AttributeError], [IndexError] or
    [TypeError] (for JSON of an unexpected shape); [KeyError] never
    does. *)
Theorem check_kernel_config_raises (kernel_config : str) (e : exn) :
  check_kernel_config checksec kernel_config = Raise e →
  e = UnicodeEncodeError ∨ e = AttributeError ∨ e = IndexError
  ∨ e = TypeError.
Proof.
  unfold check_kernel_config.
  destruct (Utf8.encode kernel_config) as [data|]; [|intros [= <-]; auto].
  destruct (checksec data) as [parsed|]; [|done].
  destruct (whitelist_configs parsed) as [filtered [e'|]] eqn:Hw; [|done].
  pose proof (whitelist_configs_raises parsed e') as H. rewrite Hw in H.
  destruct (H eq_refl) as [->|[->|[->| ->]]]; [done|..];
    intros [= <-]; auto.
Qed.

Lemma check_kernel_config_raises_encoded (kernel_config : str)
    (data : bytes) (e : exn) :
  Utf8.encode kernel_config = Some data →
  check_kernel_config checksec kernel_config = Raise e →
  e = AttributeError ∨ e = IndexError ∨ e = TypeError.
Proof.
  unfold check_kernel_config. intros ->.
  destruct (checksec data) as [parsed|]; [|done].
  destruct (whitelist_configs parsed) as [filtered [e'|]] eqn:Hw; [|done].
  pose proof (whitelist_configs_raises parsed e') as H. rewrite Hw in H.
  destruct (H eq_refl) as [->|[->|[->| ->]]]; [done|..];
    intros [= <-]; auto.
Qed.

End AuditMore.

(** ** More on the orchestrator *)

Lemma with_record_twice fo record record' :
  with_record (with_record fo record) record' = with_record fo record'.
Proof. unfold with_record. simpl. by rewrite insert_insert_eq. Qed.

Lemma iterate_raises summary e : iterate summary = Raise e → e = TypeError.
Proof. destruct summary; simpl; congruence. Qed.

Lemma any_linux_kernel_raises lower components e :
  any_linux_kernel lower components = Raise e → e = AttributeError.
Proof.
  induction components as [|c components IH]; simpl; [done|].
  destruct c; simpl; try congruence.
  by destruct (contains (u "linux kernel") (lower s)).
Qed.

Lemma kernel_image_raises lower fo e :
  object_is_kernel_image lower fo = Raise e →
  e = AttributeError ∨ e = TypeError.
Proof.
  unfold object_is_kernel_image.
  destruct (processed_analysis fo !! u "software_components")
    as [components|]; [|done].
  destruct (components !! u "summary") as [summary|]; [|done].
  destruct (iterate summary) as [l|e'] eqn:Hi.
  - intros ?%any_linux_kernel_raises. auto.
  - intros [= <-]. apply iterate_raises in Hi. auto.
Qed.

Lemma any_linux_kernel_hit lower (hints : list str) (others : list pyval) :
  existsb (names_linux_kernel lower) hints = true →
  any_linux_kernel lower ((PStr <$> hints) ++ others) = Ok true.
Proof.
  induction hints as [|hint hints IH]; [done|].
  cbn [existsb fmap list_fmap app any_linux_kernel is_linux_kernel].
  unfold names_linux_kernel at 1.
  destruct (contains (u "linux kernel") (lower hint)); [done|].
  apply IH.
Qed.

Section OrchestratorMore.
Variable unicode_isalnum unicode_isdecimal : Z → bool.
Variable str_lower : str → str.

Let classify := probably_kernel_config unicode_isalnum unicode_isdecimal.
Let detected := detection unicode_isalnum unicode_isdecimal str_lower.
Let run := process_object unicode_isalnum unicode_isdecimal str_lower.

Lemma run_state decompress checksec fo :
  ∃ record, (run decompress checksec fo).1 = with_record fo record.
Proof.
  unfold run. rewrite process_object_run.
  destruct (detection _ _ _ _ fo) as [[raw|]|e]; [|by eexists..].
  destruct (Utf8.decode raw) as [text|]; [|by eexists].
  destruct (check_kernel_config checksec text); by eexists.
Qed.

(** X15: the call touches nothing but the plugin's own record: the
    bytes, the file name and the records of the other analyses are after
    the call what they were before, also when the call raises. *)
Theorem process_object_frame decompress checksec (fo : FileObject) :
  let fo' := (run decompress checksec fo).1 in
  binary fo' = binary fo
  ∧ file_name fo' = file_name fo
  ∧ ∀ name, name ≠ NAME →
            processed_analysis fo' !! name = processed_analysis fo !! name.
Proof.
  simpl. destruct (run_state decompress checksec fo) as [record ->].
  split; [done|]. split; [done|]. intros name Hname.
  unfold with_record. simpl. by rewrite lookup_insert_ne.
Qed.

Lemma detected_with_record decompress fo record :
  detected decompress (with_record fo record) = detected decompress fo.
Proof.
  unfold detected, detection.
  by rewrite mime_with_record, kernel_image_with_record.
Qed.

Lemma run_with_record decompress checksec fo record :
  run decompress checksec (with_record fo record)
  = run decompress checksec fo.
Proof.
  unfold run. rewrite !process_object_run.
  fold (detected decompress (with_record fo record)).
  fold (detected decompress fo). rewrite detected_with_record.
  destruct (detected decompress fo) as [[raw|]|e];
    rewrite ?with_record_twice; [|done..].
  destruct (Utf8.decode raw) as [text|]; rewrite ?with_record_twice; [|done].
  destruct (check_kernel_config checksec text);
    by rewrite ?with_record_twice.
Qed.

(** X16: an earlier result of the plugin plays no part, and analysing an
    analysed object again changes nothing: whatever record the object
    carries under the plugin's name, the call ends with the same object
    and the same outcome, and a second call on the result repeats the
    first. *)
Theorem process_object_idempotent decompress checksec (fo : FileObject) :
  (∀ record, run decompress checksec (with_record fo record)
             = run decompress checksec fo)
  ∧ run decompress checksec (run decompress checksec fo).1
    = run decompress checksec fo.
Proof.
  split; [intros record; apply run_with_record|].
  destruct (run_state decompress checksec fo) as [record Hrec].
  rewrite Hrec at 1. apply run_with_record.
Qed.

(** X17: [decompress] is consulted only for a candidate: when the
    plain-text branch is taken, or when the file is not named
    [configs.ko] and the hints do not name a Linux kernel, the call does
    the same whatever [decompress] would give. *)
Theorem process_object_skips_cascade decompress1 decompress2 checksec
    (fo : FileObject) :
  object_mime_is_plaintext fo && classify (binary fo) = true
  ∨ (file_name fo ≠ u "configs.ko"
     ∧ object_is_kernel_image str_lower fo ≠ Ok true) →
  run decompress1 checksec fo = run decompress2 checksec fo.
Proof.
  intros Hskip. unfold run. rewrite !process_object_run.
  assert (detection unicode_isalnum unicode_isdecimal str_lower decompress1 fo
          = detection unicode_isalnum unicode_isdecimal str_lower
              decompress2 fo) as ->; [|done].
  unfold detection. fold classify.
  destruct Hskip as [-> |[Hname Himage]]; [done|].
  destruct (object_mime_is_plaintext fo && classify (binary fo)); [done|].
  rewrite bool_decide_eq_false_2 by done.
  by destruct (object_is_kernel_image str_lower fo) as [[|]|e].
Qed.

(** X18: the auditor is run on the accepted bytes and only on a positive
    verdict: two auditors that agree on the bytes handed on by the
    detection, if any, give the same call. *)
Theorem process_object_audits_accepted_bytes decompress checksec1 checksec2
    (fo : FileObject) :
  (∀ raw, detected decompress fo = Ok (Some raw) →
          checksec1 raw = checksec2 raw) →
  run decompress checksec1 fo = run decompress checksec2 fo.
Proof.
  intros Hagree. unfold run. rewrite !process_object_run.
  fold (detected decompress fo).
  destruct (detected decompress fo) as [[raw|]|e] eqn:Hd; [|done..].
  destruct (Utf8.decode raw) as [text|] eqn:Hdec; [|done].
  assert (check_kernel_config checksec1 text
          = check_kernel_config checksec2 text) as ->; [|done].
  unfold check_kernel_config.
  rewrite (encode_decoded_bytes _ _ Hdec). by rewrite Hagree.
Qed.

(** X19: what leaves the call is [AttributeError], [IndexError] or
    [TypeError], from hints or auditor output of an unexpected shape;
    the [KeyError] of a missing record and the errors of decoding and
    encoding never do. *)
Theorem process_object_raises decompress checksec (fo : FileObject)
    (e : exn) :
  (run decompress checksec fo).2 = Raise e →
  e = AttributeError ∨ e = IndexError ∨ e = TypeError.
Proof.
  unfold run. rewrite process_object_run.
  destruct (detection _ _ _ _ fo) as [[raw|]|e'] eqn:Hd; simpl.
  - destruct (detected_classified _ _ _ _ _ _ Hd) as [Hc _].
    destruct (classify_decodes _ _ _ Hc) as [text Hdec]. rewrite Hdec.
    destruct (check_kernel_config checksec text) as [report|e'] eqn:Hk;
      [done|].
    simpl. intros [= <-].
    apply (check_kernel_config_raises_encoded checksec text raw); [|done].
    by apply encode_decoded_bytes.
  - done.
  - intros [= <-]. revert Hd. unfold detection.
    destruct (_ && _); [done|]. case_bool_decide.
    + by destruct (probably_kernel_config _ _ _).
    + destruct (object_is_kernel_image str_lower fo) as [[|]|e''] eqn:Hi.
      * by destruct (probably_kernel_config _ _ _).
      * done.
      * intros [= <-]. apply kernel_image_raises in Hi. tauto.
Qed.

(** X20: a negative verdict leaves nothing but the empty summary: when
    the call returns without a configuration, the plugin's record is
    [{'summary': []}]. *)
Theorem process_object_negative_record decompress checksec
    (fo fo' : FileObject) :
  run decompress checksec fo = (fo', Ok tt) →
  verdict fo' = NotAConfig →
  processed_analysis fo' !! NAME = Some {[ u "summary" := PList [] ]}.
Proof.
  intros Hrun Hverdict.
  assert (verdict (run decompress checksec fo).1 = NotAConfig) as Hv
    by (by rewrite Hrun).
  unfold run in *. rewrite verdict_run in Hv.
  rewrite process_object_run in Hrun.
  destruct (detection _ _ _ _ fo) as [[raw|]|e]; [done| |done].
  injection Hrun as <-. unfold with_record. simpl.
  by rewrite lookup_insert_eq.
Qed.

(** X21: the search through the hints stops at the first hit: once a
    hint names a Linux kernel, what follows it in the list is not looked
    at, so a later entry that is not a string raises nothing. *)
Theorem kernel_image_stops_at_first_hit (fo : FileObject)
    (components : gmap str pyval) (hints : list str) (others : list pyval) :
  processed_analysis fo !! u "software_components" = Some components →
  components !! u "summary" = Some (PList ((PStr <$> hints) ++ others)) →
  existsb (names_linux_kernel str_lower) hints = true →
  object_is_kernel_image str_lower fo = Ok true.
Proof.
  intros Hc Hs Hhit. unfold object_is_kernel_image. rewrite Hc, Hs.
  cbn [iterate]. by apply any_linux_kernel_hit.
Qed.

End OrchestratorMore.

(** ** Witnesses *)

(** A decomposition at the offset that [find] gives is the first
    occurrence. *)
Lemma first_occurrence_at_find (sub s pre post : bytes) :
  s = pre ++ sub ++ post → find s sub = Z.of_nat (length pre) →
  first_occurrence sub s pre post.
Proof.
  intros Heq Hfind. unfold find in Hfind.
  destruct (find_from_cases sub s 0)
    as [[Hnone _]|(pre' & post' & [Heq' Hmin] & Hfound)]; [lia|].
  assert (length pre = length pre') as Hlen by lia.
  split; [done|]. intros pre'' post'' Heq''.
  rewrite Hlen. by apply (Hmin pre'' post'').
Qed.

Lemma classifier_depends_on_lines_witness :
  probably_kernel_config ascii_only ascii_only reordered_config = true.
Proof.
  destruct (classifier_depends_on_lines ascii_only ascii_only
              sample_config reordered_config
              (as_text sample_config) (as_text reordered_config))
    as [Hmono _]; [vm_compute; reflexivity..|].
  apply Hmono; [|vm_compute; reflexivity].
  assert (lines (as_text sample_config)
          = [u "# Linux 5.4.0 Kernel Configuration"; u "CONFIG_FOO=y";
             u "# CONFIG_BAR=n"; []]) as -> by (vm_compute; reflexivity).
  assert (lines (as_text reordered_config)
          = [u "# CONFIG_BAR=n"; u "CONFIG_FOO=y";
             u "# Linux 5.4.0 Kernel Configuration"; []]) as ->
    by (vm_compute; reflexivity).
  intros l Hl. apply elem_of_cons in Hl as [->|Hl]; [by do 2 right; left|].
  apply elem_of_cons in Hl as [->|Hl]; [by right; left|].
  apply elem_of_cons in Hl as [->|Hl]; [by left|].
  apply elem_of_cons in Hl as [->|Hl]; [by do 3 right; left|].
  by apply elem_of_nil in Hl.
Defined.

Lemma classifier_accepts_embedded_witness :
  probably_kernel_config ascii_only ascii_only
    (b "# saved" ++ b LF ++ sample_config ++ b LF ++ b "# end") = true.
Proof.
  apply (classifier_accepts_embedded ascii_only ascii_only sample_config
           (b "# saved") (b "# end")).
  - vm_compute. reflexivity.
  - vm_compute. eexists. reflexivity.
  - vm_compute. eexists. reflexivity.
Defined.

Lemma classifier_rejects_unterminated_banner_witness :
  probably_kernel_config ascii_only ascii_only crlf_config = false.
Proof.
  apply (classifier_rejects_unterminated_banner ascii_only ascii_only
           crlf_config (as_text crlf_config)).
  - vm_compute. reflexivity.
  - assert (lines (as_text crlf_config)
            = [u "# Linux 5.4.0 Kernel Configuration" ++ u CR;
               u "CONFIG_FOO=y" ++ u CR; []]) as ->
      by (vm_compute; reflexivity).
    intros l Hl Hlast.
    repeat (apply elem_of_cons in Hl as [->|Hl];
            [vm_compute in Hlast; discriminate Hlast|]).
    by apply elem_of_nil in Hl.
Defined.

Lemma cascade_ignores_prefix_witness :
  try_object_extract_ikconfig sample_codec sample_image
  = try_object_extract_ikconfig sample_codec (MAGIC_WORD ++ b "payload").
Proof.
  apply (cascade_ignores_prefix sample_codec sample_image (b "vmlinux")
           (b "payload")).
  apply first_occurrence_at_find; vm_compute; reflexivity.
Defined.

Lemma cascade_result_is_candidate_witness :
  ∃ post rest,
    sample_codec (MAGIC_WORD ++ post)
    = try_object_extract_ikconfig sample_codec sample_image :: rest.
Proof.
  apply (cascade_result_is_candidate sample_codec sample_image).
  intros Hempty. vm_compute in Hempty. discriminate Hempty.
Defined.

Lemma whitelist_configs_bounds_sections_witness :
  ∃ d' kernel',
    whitelist_configs (PDict sample_report) = (PDict d', None)
    ∧ d' !! u "kernel" = Some (PDict kernel')
    ∧ (size kernel' ≤ 27)%nat.
Proof.
  destruct (whitelist_configs_bounds_sections sample_report sample_kernel ∅)
    as (d' & kernel' & g' & Hrun & Hk & _ & Hsize & _);
    [vm_compute; reflexivity..|].
  exists d', kernel'. split; [exact Hrun|]. split; [exact Hk|exact Hsize].
Defined.

Lemma whitelist_configs_ignores_other_flags_witness :
  whitelist_configs
    (PDict (<[u "kernel" := PDict (<[u "new_flag" := PStr (u "yes")]>
                                     sample_kernel)]> sample_report))
  = whitelist_configs (PDict sample_report).
Proof.
  apply (whitelist_configs_ignores_other_flags sample_report sample_kernel ∅).
  - vm_compute. reflexivity.
  - vm_compute. reflexivity.
  - apply (bool_decide_unpack _). vm_compute. exact I.
Defined.

Lemma whitelist_configs_accepts_flag_lists_witness :
  whitelist_configs (PDict flag_list_report) = (PDict flag_list_report, None).
Proof.
  apply (whitelist_configs_accepts_flag_lists flag_list_report
           [PStr (u "gcc_stack_protector")] []).
  - vm_compute. reflexivity.
  - vm_compute. reflexivity.
  - constructor; [vm_compute; reflexivity|constructor].
  - constructor.
Defined.

Lemma check_kernel_config_report_shape_witness :
  check_kernel_config sample_auditor (u "CONFIG_FOO=y")
  = Ok (whitelist_configs (PDict sample_report)).1
  ∧ ((whitelist_configs (PDict sample_report)).1 = empty_report
     ∨ ∃ d, (whitelist_configs (PDict sample_report)).1 = PDict d
            ∧ is_Some (d !! u "kernel") ∧ is_Some (d !! u "grsecurity")).
Proof.
  assert (check_kernel_config sample_auditor (u "CONFIG_FOO=y")
          = Ok (whitelist_configs (PDict sample_report)).1) as Hrun
    by (vm_compute; reflexivity).
  split; [exact Hrun|].
  exact (check_kernel_config_report_shape sample_auditor (u "CONFIG_FOO=y")
           _ Hrun).
Defined.

Lemma check_kernel_config_raises_witness :
  check_kernel_config list_auditor (u "CONFIG_FOO=y") = Raise TypeError
  ∧ (TypeError = UnicodeEncodeError ∨ TypeError = AttributeError
     ∨ TypeError = IndexError ∨ TypeError = TypeError).
Proof.
  assert (check_kernel_config list_auditor (u "CONFIG_FOO=y")
          = Raise TypeError) as Hraise by (vm_compute; reflexivity).
  split; [exact Hraise|].
  exact (check_kernel_config_raises list_auditor (u "CONFIG_FOO=y")
           TypeError Hraise).
Defined.

Lemma process_object_skips_cascade_witness :
  process_object ascii_only ascii_only ascii_lower no_codec silent_auditor
    sample_text_file
  = process_object ascii_only ascii_only ascii_lower sample_codec
      silent_auditor sample_text_file.
Proof.
  apply process_object_skips_cascade. left. vm_compute. reflexivity.
Defined.

Lemma process_object_audits_accepted_bytes_witness :
  process_object ascii_only ascii_only ascii_lower no_codec silent_auditor
    sample_binary_file
  = process_object ascii_only ascii_only ascii_lower no_codec list_auditor
      sample_binary_file.
Proof.
  apply process_object_audits_accepted_bytes.
  intros raw Hraw. vm_compute in Hraw. discriminate Hraw.
Defined.

Lemma process_object_raises_witness :
  (process_object ascii_only ascii_only ascii_lower no_codec list_auditor
     sample_text_file).2 = Raise TypeError
  ∧ (TypeError = AttributeError ∨ TypeError = IndexError
     ∨ TypeError = TypeError).
Proof.
  assert ((process_object ascii_only ascii_only ascii_lower no_codec
             list_auditor sample_text_file).2 = Raise TypeError) as Hraise
    by (vm_compute; reflexivity).
  split; [exact Hraise|].
  exact (process_object_raises ascii_only ascii_only ascii_lower no_codec
           list_auditor sample_text_file TypeError Hraise).
Defined.

Lemma process_object_negative_record_witness :
  processed_analysis
    (with_record sample_binary_file (<[u "summary" := PList []]> ∅))
    !! NAME = Some {[ u "summary" := PList [] ]}.
Proof.
  apply (process_object_negative_record ascii_only ascii_only ascii_lower
           no_codec silent_auditor sample_binary_file).
  - vm_compute. reflexivity.
  - vm_compute. reflexivity.
Defined.

Lemma kernel_image_stops_at_first_hit_witness :
  object_is_kernel_image ascii_lower mixed_hints_file = Ok true.
Proof.
  apply (kernel_image_stops_at_first_hit ascii_lower mixed_hints_file
           mixed_hints [u "Linux Kernel 5.4.0"] [PInt 3]).
  - vm_compute. reflexivity.
  - vm_compute. reflexivity.
  - vm_compute. reflexivity.
Defined.

Lemma whitelist_configs_keyerror_iff_witness :
  (whitelist_configs (PDict ∅)).2 = Some KeyError.
Proof.
  apply (whitelist_configs_keyerror_iff (PDict ∅)).
  exists ∅. split; [reflexivity|]. left. vm_compute. reflexivity.
Defined.

Lemma check_kernel_config_empty_iff_witness :
  check_kernel_config silent_auditor (u "CONFIG_FOO=y") = Ok empty_report.
Proof.
  apply (check_kernel_config_empty_iff silent_auditor (u "CONFIG_FOO=y")).
  exists (b "CONFIG_FOO=y"). split; [vm_compute; reflexivity|].
  left. reflexivity.
Defined.

Lemma process_object_frame_witness :
  processed_analysis
    (process_object ascii_only ascii_only ascii_lower no_codec
       silent_auditor sample_text_file).1 !! u "file_type"
  = processed_analysis sample_text_file !! u "file_type".
Proof.
  apply (process_object_frame ascii_only ascii_only ascii_lower no_codec
           silent_auditor sample_text_file).
  intros Hname. vm_compute in Hname. discriminate Hname.
Defined.
